(** * appleseed-max: the tile callback and the renderer parameter dialog

    A shallow embedding of
      - [src/appleseed-renderer/tilecallback.cpp]
      - [src/appleseed-renderer/appleseedrendererparamdlg.cpp]
    and the properties of these two translation units.

    Conventions.  Every C++ integer is a [Z]; the conversions the source
    writes with [static_cast] are the wrap-around functions [to_int],
    [to_size_t] and [to_uint32] below.  The plugin is built for 64-bit
    Windows: [int] and [LONG] are 32-bit signed, [size_t] is 64-bit unsigned,
    [asf::uint32] is 32-bit unsigned.  Arithmetic on [int] is modelled with
    two's-complement wrap-around, which is what the target compiler emits;
    the statements say separately what holds when no overflow occurs.

    The host (3ds Max) and the renderer (appleseed) are external: their
    objects appear as records that hold what this code can observe of them,
    and their operations as functions on these records. *)

From stdpp Require Import base numbers list gmap gmultiset strings.
From Equations Require Import Equations.

Local Open Scope Z_scope.

(** ** Machine integers *)

Definition is_int (z : Z) : Prop := - 2 ^ 31 <= z < 2 ^ 31.
Definition is_size_t (z : Z) : Prop := 0 <= z < 2 ^ 64.
Definition is_uint32 (z : Z) : Prop := 0 <= z < 2 ^ 32.

(** [static_cast<int>] and [static_cast<LONG>]. *)
Definition to_int (z : Z) : Z := (z + 2 ^ 31) mod 2 ^ 32 - 2 ^ 31.
(** [static_cast<size_t>], and the result of [size_t] arithmetic. *)
Definition to_size_t (z : Z) : Z := z mod 2 ^ 64.
Definition to_uint32 (z : Z) : Z := z mod 2 ^ 32.

(** ** Loops *)

(** [const int s = length > 0 ? 1 : -1;] *)
Definition line_step (length : Z) : Z := if decide (length > 0) then 1 else -1.

(** The number of iterations the loop of [draw_hline] and [draw_vline] still
    has to make when its counter is [i]; this is the termination measure. *)
Definition steps_left (stop length i : Z) : nat :=
  Z.to_nat (if decide (is_int i)
            then ((to_int stop - i) * line_step length) mod 2 ^ 32
            else 2 ^ 32).

Lemma to_int_is_int (z : Z) : is_int (to_int z).
Proof.
  unfold is_int, to_int.
  change (2 ^ 31) with 2147483648. change (2 ^ 32) with 4294967296.
  Z.to_euclidean_division_equations; lia.
Qed.

(** Each iteration that does not leave the loop brings the counter one step
    closer to [stop]. *)
Lemma steps_left_decreases (stop length i : Z) :
  i <> to_int stop ->
  (steps_left stop length (to_int (i + line_step length)) < steps_left stop length i)%nat.
Proof.
  intros Hne. unfold steps_left.
  destruct (decide (is_int (to_int (i + line_step length)))) as [_|Hn];
    [|destruct Hn; apply to_int_is_int].
  pose proof (to_int_is_int stop) as Hstop.
  unfold line_step, to_int, is_int in *.
  change (2 ^ 31) with 2147483648 in *. change (2 ^ 32) with 4294967296 in *.
  repeat case_decide; Z.to_euclidean_division_equations; lia.
Qed.

(** [for (int i = start; i != stop; i += s) body(i);] with [s] the step of
    [length].  The counter is an [int]: the comparison is with the [int]
    value of [stop] and the increment wraps. *)
Equations? line_loop {St : Type} (body : Z -> St -> St) (stop length : Z)
    (i : Z) (st : St) : St by wf (steps_left stop length i) lt :=
  line_loop body stop length i st with decide (i = to_int stop) := {
    | left _ := st ;
    | right _ := line_loop body stop length (to_int (i + line_step length)) (body i st) }.
Proof. by apply steps_left_decreases. Qed.

(** [for (size_t i = first; i < n; ++i) body(i);].  The counter stays below
    [n], itself a [size_t], so [++i] never wraps. *)
Equations? count_loop {St : Type} (body : Z -> St -> St) (n : Z) (i : Z) (st : St) : St
    by wf (Z.to_nat (n - i)) lt :=
  count_loop body n i st with decide (i < n) := {
    | left _ := count_loop body n (i + 1) (body i st) ;
    | right _ := st }.
Proof. lia. Qed.

(** ** The host bitmap (3ds Max [Bitmap], [BMM_Color_fl], [RECT]) *)

(** A [float] is kept as its IEEE-754 binary32 bit pattern. *)
Definition float : Type := Z.
Definition float_one : float := 0x3F800000.   (* 1.0f *)

(** [asf::Color4f]: four floats [r], [g], [b], [a]. *)
Record Color4f : Type := mkColor4f {
  color_r : float; color_g : float; color_b : float; color_a : float }.

(** [BMM_Color_fl]: four floats [r], [g], [b], [a]. *)
Record BMM_Color_fl : Type := mkBMM_Color_fl {
  bmm_r : float; bmm_g : float; bmm_b : float; bmm_a : float }.

(** [reinterpret_cast<BMM_Color_fl*>(&color)]: both structures are four
    consecutive floats in the same order
    ([BOOST_STATIC_ASSERT(sizeof(BMM_Color_fl) == sizeof(asf::Color4f))]). *)
Definition reinterpret_as_BMM_Color_fl (c : Color4f) : BMM_Color_fl :=
  mkBMM_Color_fl (color_r c) (color_g c) (color_b c) (color_a c).

(** The Windows [RECT], four [LONG]s. *)
Record RECT : Type := mkRECT {
  rect_left : Z; rect_top : Z; rect_right : Z; rect_bottom : Z }.

(** What the callback does to the bitmap, call by call. *)
Inductive BitmapCall : Type :=
  | CallPutPixels (x y : Z) (pixel : BMM_Color_fl)
  | CallRefreshWindow (rect : option RECT).

(** The bitmap: its dimensions (both [int]), its pixels, and the calls it
    has received, oldest first. *)
Record Bitmap : Type := mkBitmap {
  Width : Z;
  Height : Z;
  bm_pixels : gmap (Z * Z) BMM_Color_fl;
  bm_calls : list BitmapCall }.

Definition inside (bitmap : Bitmap) (x y : Z) : Prop :=
  0 <= x < Width bitmap /\ 0 <= y < Height bitmap.

(** [bitmap->PutPixels(x, y, 1, pixel)]: every call of the source passes one
    pixel.  The host stores it when [(x, y)] lies inside the bitmap and
    rejects the call otherwise. *)
Definition PutPixels (x y : Z) (pixel : BMM_Color_fl) (bitmap : Bitmap) : Bitmap :=
  mkBitmap (Width bitmap) (Height bitmap)
    (if decide (inside bitmap x y)
     then <[(x, y) := pixel]> (bm_pixels bitmap)
     else bm_pixels bitmap)
    (bm_calls bitmap ++ [CallPutPixels x y pixel]).

(** [bitmap->RefreshWindow(rect)]; [None] is the default null pointer, the
    whole window. *)
Definition RefreshWindow (rect : option RECT) (bitmap : Bitmap) : Bitmap :=
  mkBitmap (Width bitmap) (Height bitmap) (bm_pixels bitmap)
    (bm_calls bitmap ++ [CallRefreshWindow rect]).

(** ** The anonymous namespace of tilecallback.cpp *)

Definition draw_hline (bitmap : Bitmap) (x y length : Z) (pixel : BMM_Color_fl) : Bitmap :=
  line_loop (fun i bitmap => PutPixels i y pixel bitmap) (x + length) length x bitmap.

Definition draw_vline (bitmap : Bitmap) (x y length : Z) (pixel : BMM_Color_fl) : Bitmap :=
  line_loop (fun i bitmap => PutPixels x i pixel bitmap) (y + length) length y bitmap.

(** [int] addition, subtraction and negation. *)
Definition int_add (a b : Z) : Z := to_int (a + b).
Definition int_sub (a b : Z) : Z := to_int (a - b).
Definition int_neg (a : Z) : Z := to_int (- a).

Definition draw_bracket (bitmap : Bitmap) (x y width height bracket_extent : Z)
    (pixel : BMM_Color_fl) : Bitmap :=
  let w := to_int (Z.min bracket_extent width) in
  let h := to_int (Z.min bracket_extent height) in
  (* Top-left corner. *)
  let bitmap := draw_hline bitmap x y w pixel in
  let bitmap := draw_vline bitmap x y h pixel in
  (* Top-right corner. *)
  let bitmap := draw_hline bitmap (int_sub (int_add x width) 1) y (int_neg w) pixel in
  let bitmap := draw_vline bitmap (int_sub (int_add x width) 1) y h pixel in
  (* Bottom-left corner. *)
  let bitmap := draw_hline bitmap x (int_sub (int_add y height) 1) w pixel in
  let bitmap := draw_vline bitmap x (int_sub (int_add y height) 1) (int_neg h) pixel in
  (* Bottom-right corner. *)
  let bitmap :=
    draw_hline bitmap (int_sub (int_add x width) 1) (int_sub (int_add y height) 1)
               (int_neg w) pixel in
  draw_vline bitmap (int_sub (int_add x width) 1) (int_sub (int_add y height) 1)
             (int_neg h) pixel.

(** The arguments are [size_t]; the sums are taken in [size_t] and every
    field is cast to [LONG]. *)
Definition make_rect (x y width height : Z) : RECT :=
  mkRECT (to_int x) (to_int y)
         (to_int (to_size_t (x + width)))
         (to_int (to_size_t (y + height))).

(** ** The renderer's image types (appleseed.foundation, appleseed.renderer) *)

Inductive PixelFormat : Type :=
  | PixelFormatUInt8 | PixelFormatUInt16 | PixelFormatUInt32
  | PixelFormatHalf | PixelFormatFloat | PixelFormatDouble.

(** [asf::CanvasProperties]; every field the callback reads is a [size_t]. *)
Record CanvasProperties : Type := mkCanvasProperties {
  m_canvas_width : Z;
  m_canvas_height : Z;
  m_tile_width : Z;
  m_tile_height : Z;
  m_channel_count : Z;
  m_tile_count_x : Z;
  m_tile_count_y : Z }.

(** [asf::Tile], with pixels of type [P]. *)
Record Tile (P : Type) : Type := mkTile {
  get_width : Z;
  get_height : Z;
  get_channel_count : Z;
  get_pixel_format : PixelFormat;
  get_pixel : Z -> Z -> P }.
Arguments mkTile {P}.
Arguments get_width {P}.
Arguments get_height {P}.
Arguments get_channel_count {P}.
Arguments get_pixel_format {P}.
Arguments get_pixel {P}.

(** [asf::Image]: its canvas properties and its tiles. *)
Record Image (P : Type) : Type := mkImage {
  properties : CanvasProperties;
  tile : Z -> Z -> Tile P }.
Arguments mkImage {P}.
Arguments properties {P}.
Arguments tile {P}.

(** What the callback uses of the renderer: the frames, the pixels a tile
    stores in its own format, the conversion of such a pixel to four floats
    (the converting constructor of [asf::Tile] applies it to every pixel) and
    the colour transform of a frame
    ([Frame::transform_to_output_color_space] applies it to every pixel). *)
Class Renderer : Type := {
  RawPixel : Type;
  Frame : Type;
  image : Frame -> Image RawPixel;
  Pixel_to_float : PixelFormat -> RawPixel -> Color4f;
  output_color_space : Frame -> Color4f -> Color4f }.

Section tile_callback.

Context {renderer : Renderer}.

(** [asf::Tile fp_tile(tile, asf::PixelFormatFloat, storage)]: the tile with
    the dimensions of [tile] and its pixels converted to [float].  The
    converted pixels are placed in [storage], the memory of the scratch tile,
    which the caller sizes for a full tile of the frame; memory is not part
    of the model. *)
Definition Tile_convert (t : Tile RawPixel) : Tile Color4f :=
  mkTile (get_width t) (get_height t) (get_channel_count t) PixelFormatFloat
         (fun x y => Pixel_to_float (get_pixel_format t) (get_pixel t x y)).

(** [frame.transform_to_output_color_space(fp_tile)]. *)
Definition transform_to_output_color_space (frame : Frame)
    (t : Tile Color4f) : Tile Color4f :=
  mkTile (get_width t) (get_height t) (get_channel_count t) (get_pixel_format t)
         (fun x y => output_color_space frame (get_pixel t x y)).

(** ** TileCallback *)

(** The scratch tile [m_float_tile_storage] is only ever used as memory: the
    model keeps the geometry it was allocated with. *)
Record TileStorage : Type := mkTileStorage {
  storage_width : Z; storage_height : Z; storage_channel_count : Z;
  storage_pixel_format : PixelFormat }.

(** The callback with the objects its pointers refer to: [m_bitmap] is the
    bitmap [*m_bitmap], [m_rendered_tile_count] the counter
    [*m_rendered_tile_count]. *)
Record TileCallback : Type := mkTileCallback {
  m_bitmap : Bitmap;
  m_rendered_tile_count : Z;
  m_float_tile_storage : option TileStorage }.

Definition with_bitmap (bitmap : Bitmap) (cb : TileCallback) : TileCallback :=
  mkTileCallback bitmap (m_rendered_tile_count cb) (m_float_tile_storage cb).

(** [boost_atomic::atomic_inc32] on an [asf::uint32]. *)
Definition atomic_inc32 (count : Z) : Z := to_uint32 (count + 1).

Definition pre_render (x y width height : Z) (cb : TileCallback) : TileCallback :=
  (* Draw a bracket around the tile. *)
  let BracketExtent := 5 in
  let BracketColor := mkBMM_Color_fl float_one float_one float_one float_one in
  let bitmap :=
    draw_bracket (m_bitmap cb) (to_int x) (to_int y) (to_int width) (to_int height)
                 BracketExtent BracketColor in
  (* Partially refresh the display window. *)
  let rect := make_rect x y width height in
  with_bitmap (RefreshWindow (Some rect) bitmap) cb.

Definition blit_tile (frame : Frame) (tile_x tile_y : Z)
    (cb : TileCallback) : TileCallback :=
  let props := properties (image frame) in
  (* Allocate memory for the temporary tile. *)
  let storage :=
    match m_float_tile_storage cb with
    | None => Some (mkTileStorage (m_tile_width props) (m_tile_height props)
                                  (m_channel_count props) PixelFormatFloat)
    | Some storage => Some storage
    end in
  (* Retrieve the source tile. *)
  let tile := tile (image frame) tile_x tile_y in
  (* Convert the tile to 32-bit floating point. *)
  let fp_tile := Tile_convert tile in
  (* Transform the tile to the color space of the frame. *)
  let fp_tile := transform_to_output_color_space frame fp_tile in
  (* Blit the tile into the bitmap. *)
  let dest_x := to_size_t (tile_x * m_tile_width props) in
  let dest_y := to_size_t (tile_y * m_tile_height props) in
  let tile_width := get_width fp_tile in
  let tile_height := get_height fp_tile in
  let bitmap :=
    count_loop (fun y bitmap =>
      count_loop (fun x bitmap =>
        let color := get_pixel fp_tile x y in
        PutPixels (to_int (to_size_t (dest_x + x)))
                  (to_int (to_size_t (dest_y + y)))
                  (reinterpret_as_BMM_Color_fl color) bitmap)
        tile_width 0 bitmap)
      tile_height 0 (m_bitmap cb) in
  mkTileCallback bitmap (m_rendered_tile_count cb) storage.

(** The three [assert]s that open [post_render_tile] and [post_render]; the
    comparison converts the [int] dimensions of the bitmap to [size_t].  They
    are the precondition of both functions. *)
Definition frame_matches_bitmap (frame : Frame) (bitmap : Bitmap) : Prop :=
  let props := properties (image frame) in
  m_canvas_width props = to_size_t (Width bitmap) /\
  m_canvas_height props = to_size_t (Height bitmap) /\
  m_channel_count props = 4.

Definition post_render_tile (frame : Frame) (tile_x tile_y : Z)
    (cb : TileCallback) : TileCallback :=
  let image := image frame in
  let props := properties image in
  (* The three assertions: [frame_matches_bitmap frame (m_bitmap cb)]. *)
  (* Blit the tile to the destination bitmap. *)
  let cb := blit_tile frame tile_x tile_y cb in
  (* Partially refresh the display window. *)
  let tile := tile image tile_x tile_y in
  let x := to_size_t (tile_x * m_tile_width props) in
  let y := to_size_t (tile_y * m_tile_height props) in
  let rect := make_rect x y (get_width tile) (get_height tile) in
  let cb := with_bitmap (RefreshWindow (Some rect) (m_bitmap cb)) cb in
  (* Keep track of the number of rendered tiles. *)
  mkTileCallback (m_bitmap cb) (atomic_inc32 (m_rendered_tile_count cb))
                 (m_float_tile_storage cb).

Definition post_render (frame : Frame) (cb : TileCallback) : TileCallback :=
  let props := properties (image frame) in
  (* The three assertions: [frame_matches_bitmap frame (m_bitmap cb)]. *)
  (* Blit all tiles. *)
  let cb :=
    count_loop (fun y cb =>
      count_loop (fun x cb => blit_tile frame x y cb) (m_tile_count_x props) 0 cb)
      (m_tile_count_y props) 0 cb in
  (* Refresh the entire display window. *)
  with_bitmap (RefreshWindow None (m_bitmap cb)) cb.

End tile_callback.

(** ** The host's user interface (3ds Max custom controls, Win32 dialogs) *)

Definition TRUE : Z := 1.
Definition FALSE : Z := 0.
Definition WM_DESTROY : Z := 0x0002.
Definition WM_INITDIALOG : Z := 0x0110.
Definition WM_COMMAND : Z := 0x0111.

(** [LOWORD(wParam)]. *)
Definition LOWORD (w : Z) : Z := Z.land w 0xFFFF.

(** Window handles of rollup pages, and addresses of objects. *)
Definition HWND : Type := positive.
Definition addr : Type := positive.

(** A control of a dialog is named by its dialog and its identifier:
    [GetDlgItem(hWnd, id)]. *)
Definition Control : Type := HWND * Z.
Definition GetDlgItem (hWnd : HWND) (id : Z) : Control := (hWnd, id).

Inductive EditType : Type :=
  | EDITTYPE_INT | EDITTYPE_FLOAT | EDITTYPE_UNIVERSE | EDITTYPE_POS_INT
  | EDITTYPE_POS_FLOAT | EDITTYPE_POS_UNIVERSE | EDITTYPE_TIME.

(** What the calls on an [ISpinnerControl] leave behind: the arguments of
    [LinkToEdit], [SetLimits], [SetResetValue] and [SetValue]. *)
Record Spinner : Type := mkSpinner {
  spin_edit : option (Control * EditType);
  spin_limits : option (Z * Z);
  spin_reset_value : option Z;
  spin_value : option Z }.

Definition new_spinner : Spinner := mkSpinner None None None None.

(** A rollup page of the render dialog: the dialog template and the title
    it was created with, its [LPARAM], and the pointer stored in its window
    by [DLSetWindowLongPtr]. *)
Record RollupPage : Type := mkRollupPage {
  page_template : Z;
  page_title : string;
  page_param : Z;
  page_long_ptr : option addr }.

(** The part of the host that the dialog touches: the rollup pages of
    [IRendParams], the [ICustEdit] and [ISpinnerControl] interfaces handed
    out and not yet released, the integer each edit box currently shows, and
    the spinners. *)
Record Host : Type := mkHost {
  rollup_pages : gmap HWND RollupPage;
  edit_interfaces : gmultiset Control;
  spinner_interfaces : gmultiset Control;
  edit_ints : gmap Control Z;
  spinners : gmap Control Spinner }.

Definition GetICustEdit (c : Control) (host : Host) : Control * Host :=
  (c, mkHost (rollup_pages host) ({[+ c +]} ⊎ edit_interfaces host)
             (spinner_interfaces host) (edit_ints host) (spinners host)).

Definition ReleaseICustEdit (c : Control) (host : Host) : Host :=
  mkHost (rollup_pages host) (edit_interfaces host ∖ {[+ c +]})
         (spinner_interfaces host) (edit_ints host) (spinners host).

Definition GetISpinner (c : Control) (host : Host) : Control * Host :=
  (c, mkHost (rollup_pages host) (edit_interfaces host)
             ({[+ c +]} ⊎ spinner_interfaces host) (edit_ints host) (spinners host)).

Definition ReleaseISpinner (c : Control) (host : Host) : Host :=
  mkHost (rollup_pages host) (edit_interfaces host)
         (spinner_interfaces host ∖ {[+ c +]}) (edit_ints host) (spinners host).

(** [ICustEdit::GetInt]: an [int]. *)
Definition GetInt (c : Control) (host : Host) : Z :=
  to_int (default 0 (edit_ints host !! c)).

Definition spinner_of (c : Control) (host : Host) : Spinner :=
  default new_spinner (spinners host !! c).

Definition with_spinner (c : Control) (s : Spinner) (host : Host) : Host :=
  mkHost (rollup_pages host) (edit_interfaces host) (spinner_interfaces host)
         (edit_ints host) (<[c := s]> (spinners host)).

Definition LinkToEdit (c edit : Control) (type : EditType) (host : Host) : Host :=
  let s := spinner_of c host in
  with_spinner c (mkSpinner (Some (edit, type)) (spin_limits s)
                            (spin_reset_value s) (spin_value s)) host.

(** The last argument, [limitCurValue], is [FALSE] in the source: the
    current value is left alone. *)
Definition SetLimits (c : Control) (min max : Z) (host : Host) : Host :=
  let s := spinner_of c host in
  with_spinner c (mkSpinner (spin_edit s) (Some (min, max))
                            (spin_reset_value s) (spin_value s)) host.

Definition SetResetValue (c : Control) (v : Z) (host : Host) : Host :=
  let s := spinner_of c host in
  with_spinner c (mkSpinner (spin_edit s) (spin_limits s) (Some v) (spin_value s)) host.

(** The last argument, [notify], is [FALSE] in the source. *)
Definition SetValue (c : Control) (v : Z) (host : Host) : Host :=
  let s := spinner_of c host in
  with_spinner c (mkSpinner (spin_edit s) (spin_limits s) (spin_reset_value s) (Some v)) host.

(** ** appleseedrendererparamdlg.cpp *)

(** Modelled from the spec: [RendererSettings] is declared in
    [renderersettings.h], which is not part of the sources; the dialog
    manages "a single numeric parameter (pixel sample count)", the member
    [m_pixel_samples], a [size_t]. *)
Record RendererSettings : Type := mkRendererSettings {
  m_pixel_samples : Z }.

(** The constants of [resource.h] and [RendererSettings::defaults()], which
    are not part of the sources. *)
Class Resources : Type := {
  IDD_FORMVIEW_RENDERERPARAMS : Z;
  IDC_TEXT_PIXELSAMPLES : Z;
  IDC_SPINNER_PIXELSAMPLES : Z;
  defaults : RendererSettings }.

(** [AppleseedRendererParamDlg::Impl].  [m_rend_params] points to the host,
    which the functions below receive explicitly.  The three members set
    after construction are [None] until they are assigned. *)
Record Impl : Type := mkImpl {
  m_in_progress : bool;
  m_settings : RendererSettings;
  m_rollup_sampling : option HWND;
  m_text_pixelsamples : option Control;
  m_spinner_pixelsamples : option Control }.

(** The memory the dialog lives in: the host, the [Impl] objects on the
    heap, and the [RendererSettings] objects owned by the callers. *)
Record World : Type := mkWorld {
  host : Host;
  impls : gmap addr Impl;
  settings_objects : gmap addr RendererSettings }.

Definition with_host (h : Host) (w : World) : World :=
  mkWorld h (impls w) (settings_objects w).

Definition with_impl (this : addr) (obj : Impl) (w : World) : World :=
  mkWorld (host w) (<[this := obj]> (impls w)) (settings_objects w).

Definition with_pages (pages : gmap HWND RollupPage) (h : Host) : Host :=
  mkHost pages (edit_interfaces h) (spinner_interfaces h) (edit_ints h) (spinners h).

(** [DLSetWindowLongPtr(hWnd, ptr)] and [DLGetWindowLongPtr<Impl*>(hWnd)]. *)
Definition DLSetWindowLongPtr (hWnd : HWND) (ptr : addr) (h : Host) : Host :=
  with_pages (alter (fun p => mkRollupPage (page_template p) (page_title p) (page_param p)
                                      (Some ptr))
                    hWnd (rollup_pages h)) h.

Definition DLGetWindowLongPtr (hWnd : HWND) (h : Host) : option addr :=
  rollup_pages h !! hWnd ≫= page_long_ptr.

(** [reinterpret_cast<LPARAM>(this)] and back; the null pointer is [0]. *)
Definition LPARAM_of_ptr (ptr : addr) : Z := Z.pos ptr.
Definition ptr_of_LPARAM (lParam : Z) : option addr :=
  match lParam with Z.pos p => Some p | _ => None end.

Section param_dlg.

Context {resources : Resources}.

Definition create_controls (hWnd : HWND) (impl : Impl) (h : Host) : Impl * Host :=
  let '(text_pixelsamples, h) := GetICustEdit (GetDlgItem hWnd IDC_TEXT_PIXELSAMPLES) h in
  let '(spinner_pixelsamples, h) := GetISpinner (GetDlgItem hWnd IDC_SPINNER_PIXELSAMPLES) h in
  let h := LinkToEdit spinner_pixelsamples (GetDlgItem hWnd IDC_TEXT_PIXELSAMPLES) EDITTYPE_INT h in
  let h := SetLimits spinner_pixelsamples 1 1000000 h in
  let h := SetResetValue spinner_pixelsamples (to_int (m_pixel_samples defaults)) h in
  let h := SetValue spinner_pixelsamples (to_int (m_pixel_samples (m_settings impl))) h in
  (mkImpl (m_in_progress impl) (m_settings impl) (m_rollup_sampling impl)
          (Some text_pixelsamples) (Some spinner_pixelsamples), h).

(** Releasing through a pointer that was never assigned has no defined
    result: [None]. *)
Definition destroy_controls (impl : Impl) (h : Host) : option Host :=
  text_pixelsamples ← m_text_pixelsamples impl;
  spinner_pixelsamples ← m_spinner_pixelsamples impl;
  Some (ReleaseISpinner spinner_pixelsamples (ReleaseICustEdit text_pixelsamples h)).

Definition on_command (h : Host) (impl : Impl) (wParam lParam : Z)
    : option (Impl * Z) :=
  if decide (LOWORD wParam = IDC_TEXT_PIXELSAMPLES) then
    text_pixelsamples ← m_text_pixelsamples impl;
    Some (mkImpl (m_in_progress impl)
                 (mkRendererSettings (to_size_t (GetInt text_pixelsamples h)))
                 (m_rollup_sampling impl) (m_text_pixelsamples impl)
                 (m_spinner_pixelsamples impl),
          TRUE)
  else Some (impl, FALSE).

Definition dialog_proc (hWnd : HWND) (uMsg wParam lParam : Z) (w : World)
    : option (World * Z) :=
  let impl :=
    if decide (uMsg = WM_INITDIALOG) then ptr_of_LPARAM lParam
    else DLGetWindowLongPtr hWnd (host w) in
  if decide (uMsg = WM_INITDIALOG) then
    this ← impl;
    let w := with_host (DLSetWindowLongPtr hWnd this (host w)) w in
    obj ← impls w !! this;
    let '(obj, h) := create_controls hWnd obj (host w) in
    Some (with_impl this obj (with_host h w), TRUE)
  else if decide (uMsg = WM_DESTROY) then
    Some (w, TRUE)
  else if decide (uMsg = WM_COMMAND) then
    this ← impl;
    obj ← impls w !! this;
    '(obj, result) ← on_command (host w) obj wParam lParam;
    Some (with_impl this obj w, result)
  else Some (w, FALSE).

(** [IRendParams::AddRollupPage(hInst, dlgTemplate, dlgProc, title, param)]
    ([hInst] is always the module of the plugin): the host creates the page
    under a window handle that is not in use and, as [CreateDialogParam]
    does, delivers [WM_INITDIALOG] with [param] to the dialog procedure
    before it returns the handle. *)
Definition AddRollupPage (dlgTemplate : Z)
    (dlgProc : HWND -> Z -> Z -> Z -> World -> option (World * Z))
    (title : string) (param : Z) (w : World) : option (HWND * World) :=
  let hWnd := fresh (dom (rollup_pages (host w))) in
  let pages :=
    <[hWnd := mkRollupPage dlgTemplate title param None]> (rollup_pages (host w)) in
  '(w, _) ← dlgProc hWnd WM_INITDIALOG 0 param (with_host (with_pages pages (host w)) w);
  Some (hWnd, w).

(** [IRendParams::DeleteRollupPage(hRollup)]: the page's window is destroyed,
    which delivers [WM_DESTROY] to its dialog procedure, and the page is
    removed. *)
Definition DeleteRollupPage
    (dlgProc : HWND -> Z -> Z -> Z -> World -> option (World * Z))
    (hRollup : HWND) (w : World) : option World :=
  '(w, _) ← dlgProc hRollup WM_DESTROY 0 0 w;
  Some (with_host (with_pages (delete hRollup (rollup_pages (host w))) (host w)) w).

(** [Impl::Impl], run on the object at address [this]. *)
Definition Impl_ctor (this : addr) (in_progress : bool)
    (settings : RendererSettings) (w : World) : option World :=
  let w := with_impl this (mkImpl in_progress settings None None None) w in
  '(rollup_sampling, w) ←
    AddRollupPage IDD_FORMVIEW_RENDERERPARAMS dialog_proc "Sampling" (LPARAM_of_ptr this) w;
  obj ← impls w !! this;
  Some (with_impl this
          (mkImpl (m_in_progress obj) (m_settings obj) (Some rollup_sampling)
                  (m_text_pixelsamples obj) (m_spinner_pixelsamples obj)) w).

(** [Impl::~Impl]. *)
Definition Impl_dtor (this : addr) (w : World) : option World :=
  obj ← impls w !! this;
  h ← destroy_controls obj (host w);
  rollup_sampling ← m_rollup_sampling obj;
  DeleteRollupPage dialog_proc rollup_sampling (with_host h w).

(** Modelled from the spec: the class [AppleseedRendererParamDlg] is
    declared in [appleseedrendererparamdlg.h], which is not part of the
    sources.  Its member [m_settings] is initialised from the constructor's
    [RendererSettings&] argument and assigned to by [AcceptParams]: it is a
    reference to the caller's object, kept here as that object's address. *)
Record AppleseedRendererParamDlg : Type := mkAppleseedRendererParamDlg {
  impl : addr;
  dlg_m_settings : addr }.

(** The constructor: [impl(new Impl(rend_params, in_progress, settings))],
    [m_settings(settings)]. *)
Definition AppleseedRendererParamDlg_ctor (in_progress : bool)
    (settings : addr) (w : World) : option (AppleseedRendererParamDlg * World) :=
  caller_settings ← settings_objects w !! settings;
  let this := fresh (dom (impls w)) in
  w ← Impl_ctor this in_progress caller_settings w;
  Some (mkAppleseedRendererParamDlg this settings, w).

(** The destructor: [delete impl]. *)
Definition AppleseedRendererParamDlg_dtor (dlg : AppleseedRendererParamDlg)
    (w : World) : option World :=
  w ← Impl_dtor (impl dlg) w;
  Some (mkWorld (host w) (delete (impl dlg) (impls w)) (settings_objects w)).

Definition DeleteThis (dlg : AppleseedRendererParamDlg) (w : World)
    : option World :=
  AppleseedRendererParamDlg_dtor dlg w.

Definition AcceptParams (dlg : AppleseedRendererParamDlg) (w : World) : option World :=
  obj ← impls w !! impl dlg;
  _ ← settings_objects w !! dlg_m_settings dlg;
  Some (mkWorld (host w) (impls w)
                (<[dlg_m_settings dlg := m_settings obj]> (settings_objects w))).

End param_dlg.

(** * Specification vocabulary

    The lists of writes, index sets, preconditions and concrete instances
    that the statements below are phrased with. *)

(** Running a loop body over a list of counter values, in order. *)
Definition run {St : Type} (body : Z -> St -> St) (counters : list Z) (st : St) : St :=
  foldl (fun st i => body i st) st counters.

(** A single-pixel write: the coordinates and the colour. *)
Definition Write : Type := Z * Z * BMM_Color_fl.

Definition write_call (w : Write) : BitmapCall :=
  CallPutPixels (w.1.1) (w.1.2) (w.2).

Definition put (w : Write) (bitmap : Bitmap) : Bitmap :=
  PutPixels (w.1.1) (w.1.2) (w.2) bitmap.

(** A sequence of single-pixel writes, in order. *)
Definition put_all (ws : list Write) (bitmap : Bitmap) : Bitmap :=
  foldl (fun bitmap w => put w bitmap) bitmap ws.

(** The counter values [start], [start + s], ..., [start + length - s], with
    [s] the step of [length]: [|length|] of them, none when [length = 0]. *)
Definition line_counters (start length : Z) : list Z :=
  (fun k => start + k * line_step length) <$> seqZ 0 (Z.abs length).

(** The same values as the [int] counter of the loop takes them. *)
Definition line_counters_int (start length : Z) : list Z :=
  (fun k => to_int (start + k * line_step length)) <$> seqZ 0 (Z.abs length).

(** A horizontal and a vertical segment, as the writes that draw them, with
    exact integer coordinates. *)
Definition hline_writes (x y length : Z) (pixel : BMM_Color_fl) : list Write :=
  (fun i => (i, y, pixel)) <$> line_counters x length.

Definition vline_writes (x y length : Z) (pixel : BMM_Color_fl) : list Write :=
  (fun i => (x, i, pixel)) <$> line_counters y length.

(** The bracket around the rectangle [(x, y, width, height)]: at each of the
    four corners a horizontal segment of [min extent width] pixels and a
    vertical segment of [min extent height] pixels; a negative length draws
    towards smaller coordinates, that is, inward from the right and bottom
    corners. *)
Definition bracket_writes (x y width height extent : Z) (pixel : BMM_Color_fl)
    : list Write :=
  let w := Z.min extent width in
  let h := Z.min extent height in
  hline_writes x y w pixel ++ vline_writes x y h pixel ++
  hline_writes (x + width - 1) y (- w) pixel ++ vline_writes (x + width - 1) y h pixel ++
  hline_writes x (y + height - 1) w pixel ++ vline_writes x (y + height - 1) (- h) pixel ++
  hline_writes (x + width - 1) (y + height - 1) (- w) pixel ++
  vline_writes (x + width - 1) (y + height - 1) (- h) pixel.

(** The pixels of that bracket, as a set of coordinates. *)
Definition on_bracket (x y width height extent : Z) (p : Z * Z) : Prop :=
  let w := Z.min extent width in
  let h := Z.min extent height in
  ((p.2 = y \/ p.2 = y + height - 1) /\
   (x <= p.1 < x + w \/ x + width - w <= p.1 < x + width)) \/
  ((p.1 = x \/ p.1 = x + width - 1) /\
   (y <= p.2 < y + h \/ y + height - h <= p.2 < y + height)).

Definition white : BMM_Color_fl := mkBMM_Color_fl float_one float_one float_one float_one.

(** The writes that copy a [width] by [height] block of colours to the
    rectangle with origin [(dest_x, dest_y)], row by row. *)
Definition rect_writes (dest_x dest_y width height : Z)
    (color : Z -> Z -> BMM_Color_fl) : list Write :=
  y ← seqZ 0 height;
  (fun x => (dest_x + x, dest_y + y, color x y)) <$> seqZ 0 width.

(** What the bitmap can hold: [Width()] and [Height()] are non-negative
    [int]s. *)
Definition bitmap_ok (bitmap : Bitmap) : Prop :=
  0 <= Width bitmap < 2 ^ 31 /\ 0 <= Height bitmap < 2 ^ 31.

(** The tile [(tile_x, tile_y)] of the frame lies inside the frame's canvas
    (the indices and the dimensions are [size_t], hence non-negative). *)
Definition tile_in_canvas {renderer : Renderer} (frame : Frame) (tile_x tile_y : Z) : Prop :=
  let props := properties (image frame) in
  let t := tile (image frame) tile_x tile_y in
  0 <= tile_x /\ 0 <= tile_y /\
  0 <= m_tile_width props /\ 0 <= m_tile_height props /\
  0 <= get_width t /\ 0 <= get_height t /\
  tile_x * m_tile_width props + get_width t <= m_canvas_width props /\
  tile_y * m_tile_height props + get_height t <= m_canvas_height props.

(** The colour [blit_tile] computes for the pixel [(x, y)] of a tile: the
    source pixel converted to 32-bit floating point, transformed to the
    output colour space of the frame, and handed to the bitmap. *)
Definition output_pixel {renderer : Renderer} (frame : Frame) (t : Tile RawPixel) (x y : Z)
    : BMM_Color_fl :=
  reinterpret_as_BMM_Color_fl
    (output_color_space frame (Pixel_to_float (get_pixel_format t) (get_pixel t x y))).

(** The tile indices of a canvas, row by row. *)
Definition all_tiles (props : CanvasProperties) : list (Z * Z) :=
  y ← seqZ 0 (m_tile_count_y props);
  (fun x => (x, y)) <$> seqZ 0 (m_tile_count_x props).

(** [blit_tile] performed once for each index of a list, in order. *)
Definition blit_tiles {renderer : Renderer} (frame : Frame) (tiles : list (Z * Z))
    (cb : TileCallback) : TileCallback :=
  foldl (fun cb xy => blit_tile frame xy.1 xy.2 cb) cb tiles.

(** [post_render_tile] called for each element of a list, in order. *)
Definition post_render_tiles {renderer : Renderer} (calls : list (Frame * Z * Z))
    (cb : TileCallback) : TileCallback :=
  foldl (fun cb c => post_render_tile (c.1.1) (c.1.2) (c.2) cb) cb calls.

(** The dialog is up: the page [page] carries the pointer to the [Impl]
    object at [this], which has been through [create_controls]. *)
Definition dialog_ready (page : HWND) (this : addr) (edit spinner : Control)
    (w : World) : Prop :=
  DLGetWindowLongPtr page (host w) = Some this /\
  exists obj, impls w !! this = Some obj /\
    m_rollup_sampling obj = Some page /\
    m_text_pixelsamples obj = Some edit /\
    m_spinner_pixelsamples obj = Some spinner.

(** A sequence of [WM_COMMAND] messages delivered to the page, each with its
    [wParam] and [lParam]. *)
Fixpoint send_commands {resources : Resources} (hWnd : HWND) (cmds : list (Z * Z)) (w : World)
    : option World :=
  match cmds with
  | [] => Some w
  | cmd :: cmds =>
      '(w, _) ← dialog_proc hWnd WM_COMMAND (cmd.1) (cmd.2) w;
      send_commands hWnd cmds w
  end.

(** A renderer whose raw pixels are integers, shown as grey levels, and whose
    colour transform exchanges red and blue. *)
Definition example_renderer : Renderer := {|
  RawPixel := Z;
  Frame := Image Z;
  image := fun frame => frame;
  Pixel_to_float := fun _ v => mkColor4f v v v float_one;
  output_color_space := fun _ c =>
    mkColor4f (color_b c) (color_g c) (color_r c) (color_a c) |}.

(** A 3 by 2 canvas cut into tiles of 2 by 2: the tile [(0, 0)] is full, the
    tile [(1, 0)] is truncated to one column. *)
Definition example_frame : Image Z :=
  mkImage
    (mkCanvasProperties 3 2 2 2 4 2 1)
    (fun tile_x tile_y =>
       mkTile (if decide (tile_x = 0) then 2 else 1) 2 4 PixelFormatHalf
              (fun x y => 100 * tile_x + 10 * y + x)).

Definition example_bitmap : Bitmap := mkBitmap 3 2 ∅ [].

Definition example_callback : TileCallback := mkTileCallback example_bitmap 0 None.

Definition example_resources : Resources := {|
  IDD_FORMVIEW_RENDERERPARAMS := 101;
  IDC_TEXT_PIXELSAMPLES := 1001;
  IDC_SPINNER_PIXELSAMPLES := 1002;
  defaults := mkRendererSettings 16 |}.

Definition example_host : Host := mkHost ∅ ∅ ∅ ∅ ∅.

Definition example_world : World :=
  mkWorld example_host ∅ {[ 1%positive := mkRendererSettings 16 ]}.

Definition example_edit : Control := GetDlgItem 1%positive 1001.

(** A host in which that edit box shows [-1]. *)
Definition example_host_negative : Host :=
  mkHost ∅ ∅ ∅ {[ example_edit := -1 ]} ∅.

Definition example_impl (samples : Z) : Impl :=
  mkImpl false (mkRendererSettings samples) (Some 1%positive) (Some example_edit)
         (Some (GetDlgItem 1%positive 1002)).

(** ** Further vocabulary *)

(** [TileCallback::TileCallback(bitmap, rendered_tile_count)]: the two
    pointers are stored and the scratch tile starts out null. *)
Definition TileCallback_ctor (bitmap : Bitmap) (rendered_tile_count : Z) : TileCallback :=
  mkTileCallback bitmap rendered_tile_count None.

(** The calls the renderer makes on the callback. *)
Inductive Notification {renderer : Renderer} : Type :=
  | notify_pre_render (x y width height : Z)
  | notify_post_render_tile (frame : Frame) (tile_x tile_y : Z)
  | notify_post_render (frame : Frame).

Definition notify {renderer : Renderer} (n : Notification) (cb : TileCallback)
    : TileCallback :=
  match n with
  | notify_pre_render x y width height => pre_render x y width height cb
  | notify_post_render_tile frame tile_x tile_y => post_render_tile frame tile_x tile_y cb
  | notify_post_render frame => post_render frame cb
  end.

(** A sequence of such calls, in order. *)
Definition notify_all {renderer : Renderer} (ns : list Notification) (cb : TileCallback)
    : TileCallback :=
  foldl (fun cb n => notify n cb) cb ns.

Definition is_post_render_tile {renderer : Renderer} (n : Notification) : bool :=
  match n with notify_post_render_tile _ _ _ => true | _ => false end.

(** The refreshes among the calls a bitmap has received, in order. *)
Definition refreshes (calls : list BitmapCall) : list (option RECT) :=
  omap (fun c => match c with
                 | CallRefreshWindow rect => Some rect
                 | CallPutPixels _ _ _ => None
                 end) calls.

(** The writes of [blit_tile] with the coordinates as the code computes
    them: the sums in [size_t], then cast to [int]. *)
Definition blit_writes {renderer : Renderer} (frame : Frame) (tile_x tile_y : Z)
    : list Write :=
  let props := properties (image frame) in
  let t := tile (image frame) tile_x tile_y in
  let dest_x := to_size_t (tile_x * m_tile_width props) in
  let dest_y := to_size_t (tile_y * m_tile_height props) in
  y ← seqZ 0 (get_height t);
  (fun x => (to_int (to_size_t (dest_x + x)), to_int (to_size_t (dest_y + y)),
             output_pixel frame t x y)) <$> seqZ 0 (get_width t).

(** The scratch tile [blit_tile] allocates for a frame: a full tile of the
    frame in floating point. *)
Definition frame_storage {renderer : Renderer} (frame : Frame) : TileStorage :=
  let props := properties (image frame) in
  mkTileStorage (m_tile_width props) (m_tile_height props) (m_channel_count props)
                PixelFormatFloat.

(** The rectangle of pixels [(x, y, width, height)]. *)
Definition in_rect (x y width height : Z) (p : Z * Z) : Prop :=
  x <= p.1 < x + width /\ y <= p.2 < y + height.

(** The outline of that rectangle. *)
Definition on_outline (x y width height : Z) (p : Z * Z) : Prop :=
  in_rect x y width height p /\
  (p.1 = x \/ p.1 = x + width - 1 \/ p.2 = y \/ p.2 = y + height - 1).

(** Two states of a bitmap with the same dimensions and the same refreshes:
    what single-pixel writes leave alone. *)
Definition same_frame (b1 b2 : Bitmap) : Prop :=
  Width b2 = Width b1 /\ Height b2 = Height b1 /\
  refreshes (bm_calls b2) = refreshes (bm_calls b1).

(** The rectangle of the bitmap that the tile [(tile_x, tile_y)] of a frame
    is blitted to. *)
Definition in_tile {renderer : Renderer} (frame : Frame) (tile_x tile_y : Z)
    (p : Z * Z) : Prop :=
  let props := properties (image frame) in
  let t := tile (image frame) tile_x tile_y in
  in_rect (tile_x * m_tile_width props) (tile_y * m_tile_height props)
          (get_width t) (get_height t) p.

(** A tile that lies in the canvas and is no larger than a full tile. *)
Definition tile_ok {renderer : Renderer} (frame : Frame) (xy : Z * Z) : Prop :=
  let props := properties (image frame) in
  tile_in_canvas frame (xy.1) (xy.2) /\
  get_width (tile (image frame) (xy.1) (xy.2)) <= m_tile_width props /\
  get_height (tile (image frame) (xy.1) (xy.2)) <= m_tile_height props.

(** Every tile of the frame lies in the canvas and is no larger than a full
    tile, so that the tiles do not overlap. *)
Definition frame_tiles_ok {renderer : Renderer} (frame : Frame) : Prop :=
  let props := properties (image frame) in
  forall tile_x tile_y,
    0 <= tile_x < m_tile_count_x props -> 0 <= tile_y < m_tile_count_y props ->
    tile_ok frame (tile_x, tile_y).

(** A command that carries the identifier of the pixel-samples edit box in
    the low word of its [wParam]. *)
Definition is_edit_command {resources : Resources} (cmd : Z * Z) : bool :=
  bool_decide (LOWORD (cmd.1) = IDC_TEXT_PIXELSAMPLES).

(** An [Impl] object with another sample count. *)
Definition with_samples (samples : Z) (obj : Impl) : Impl :=
  mkImpl (m_in_progress obj) (mkRendererSettings samples) (m_rollup_sampling obj)
         (m_text_pixelsamples obj) (m_spinner_pixelsamples obj).

(** A frame without tiles. *)
Definition example_empty_frame : Image Z :=
  mkImage (mkCanvasProperties 3 2 2 2 4 0 0)
          (fun _ _ => mkTile 0 0 4 PixelFormatHalf (fun _ _ => 0)).

(** The notifications of a short render of [example_frame]: the first tile
    is announced and delivered, then the frame is shown. *)
Definition example_notifications : list (Notification (renderer := example_renderer)) :=
  [notify_pre_render 0 0 2 2;
   notify_post_render_tile (renderer := example_renderer) example_frame 0 0;
   notify_post_render (renderer := example_renderer) example_frame].

(** A world in which one dialog is open on the settings object [1]. *)
Definition example_open_world : World :=
  mkWorld (mkHost {[ 1%positive := mkRollupPage 101 "Sampling" 1 (Some 1%positive) ]}
                  {[+ example_edit +]} {[+ GetDlgItem 1%positive 1002 +]} ∅ ∅)
          {[ 1%positive := example_impl 16 ]}
          {[ 1%positive := mkRendererSettings 16 ]}.

(** * Properties *)

(** ** Machine integers *)

Ltac unfold_ints :=
  unfold int_add, int_sub, int_neg, to_int, to_size_t, to_uint32,
         is_int, is_size_t, is_uint32 in *;
  change (2 ^ 31) with 2147483648 in *;
  change (2 ^ 32) with 4294967296 in *;
  change (2 ^ 64) with 18446744073709551616 in *.

Ltac int_arith := unfold_ints; Z.to_euclidean_division_equations; lia.

Lemma to_int_id (z : Z) : is_int z -> to_int z = z.
Proof. intros. int_arith. Qed.

Lemma to_size_t_id (z : Z) : is_size_t z -> to_size_t z = z.
Proof. intros. int_arith. Qed.

Lemma to_int_add_l (a b : Z) : to_int (to_int a + b) = to_int (a + b).
Proof. int_arith. Qed.

(** ** Loops *)

Lemma run_app {St : Type} (body : Z -> St -> St) (l1 l2 : list Z) (st : St) :
  run body (l1 ++ l2) st = run body l2 (run body l1 st).
Proof. unfold run. apply foldl_app. Qed.

Lemma line_loop_step {St : Type} (body : Z -> St -> St) (stop length i : Z) (st : St) :
  line_loop body stop length i st =
  if decide (i = to_int stop) then st
  else line_loop body stop length (to_int (i + line_step length)) (body i st).
Proof.
  rewrite line_loop_equation_1. destruct (decide (i = to_int stop)); reflexivity.
Qed.

Lemma count_loop_step {St : Type} (body : Z -> St -> St) (n i : Z) (st : St) :
  count_loop body n i st =
  if decide (i < n) then count_loop body n (i + 1) (body i st) else st.
Proof.
  rewrite count_loop_equation_1. destruct (decide (i < n)); reflexivity.
Qed.

(** The counted loop runs its body on [i], [i + 1], ..., [n - 1]. *)
Lemma count_loop_run {St : Type} (body : Z -> St -> St) (n i : Z) (st : St) :
  count_loop body n i st = run body (seqZ i (n - i)) st.
Proof.
  remember (Z.to_nat (n - i)) as k eqn:Hk.
  revert i st Hk. induction k as [|k IH]; intros i st Hk.
  - rewrite count_loop_step. destruct (decide (i < n)); [lia|].
    rewrite seqZ_nil by lia. reflexivity.
  - rewrite count_loop_step. destruct (decide (i < n)); [|lia].
    rewrite (seqZ_cons i) by lia. cbn.
    rewrite IH by lia. unfold run. do 2 f_equal. lia.
Qed.

Lemma steps_left_stop (stop length : Z) : steps_left stop length (to_int stop) = 0%nat.
Proof.
  unfold steps_left. pose proof (to_int_is_int stop).
  destruct (decide (is_int (to_int stop))); [|done].
  rewrite Z.sub_diag. reflexivity.
Qed.

Lemma steps_left_next (stop length i : Z) :
  is_int i -> i <> to_int stop ->
  steps_left stop length i = S (steps_left stop length (to_int (i + line_step length))).
Proof.
  intros Hi Hne. unfold steps_left.
  pose proof (to_int_is_int (i + line_step length)) as Hnext.
  pose proof (to_int_is_int stop) as Hstop.
  destruct (decide (is_int i)); [|done].
  destruct (decide (is_int (to_int (i + line_step length)))); [|done].
  unfold line_step in *. case_decide; int_arith.
Qed.

(** The loop of [draw_hline] and [draw_vline] runs its body on the counter
    values [i], [i + s], [i + 2 s], ... ([int] arithmetic), [steps_left]
    times. *)
Lemma line_loop_run {St : Type} (body : Z -> St -> St) (stop length i : Z) (st : St) :
  is_int i ->
  line_loop body stop length i st =
  run body ((fun k => to_int (i + k * line_step length))
              <$> seqZ 0 (Z.of_nat (steps_left stop length i))) st.
Proof.
  remember (steps_left stop length i) as n eqn:Hn.
  revert i st Hn. induction n as [|n IH]; intros i st Hn Hi.
  - rewrite line_loop_step. destruct (decide (i = to_int stop)) as [|Hne]; [done|].
    rewrite (steps_left_next _ _ _ Hi Hne) in Hn. done.
  - rewrite line_loop_step. destruct (decide (i = to_int stop)) as [->|Hne].
    { rewrite steps_left_stop in Hn. done. }
    rewrite (steps_left_next _ _ _ Hi Hne) in Hn. injection Hn as Hn.
    rewrite (IH _ _ Hn (to_int_is_int _)).
    rewrite (seqZ_cons 0 (Z.of_nat (S n))) by lia. cbn.
    rewrite (to_int_id (i + 0 * _)) by (by rewrite Z.mul_0_l, Z.add_0_r).
    rewrite Z.mul_0_l, Z.add_0_r.
    replace (Z.pred (Z.of_nat (S n))) with (Z.of_nat n) by lia.
    rewrite <- (fmap_add_seqZ 1 0), <- list_fmap_compose.
    unfold run. f_equal. apply list_fmap_ext. intros _ k _. cbn.
    rewrite to_int_add_l. f_equal. lia.
Qed.

(** From [start], with [stop = start + length], the loop makes [|length|]
    iterations. *)
Lemma steps_left_start (start length : Z) :
  is_int start -> is_int length ->
  Z.of_nat (steps_left (start + length) length start) = Z.abs length.
Proof.
  intros Hs Hl. unfold steps_left, line_step.
  destruct (decide (is_int start)); [|done].
  rewrite Z2Nat.id by (apply Z.mod_pos_bound; lia).
  case_decide; int_arith.
Qed.

(** ** Writes to the bitmap *)

Lemma put_all_cons (w : Write) (ws : list Write) (bitmap : Bitmap) :
  put_all (w :: ws) bitmap = put_all ws (put w bitmap).
Proof. reflexivity. Qed.

Lemma put_all_app (ws1 ws2 : list Write) (bitmap : Bitmap) :
  put_all (ws1 ++ ws2) bitmap = put_all ws2 (put_all ws1 bitmap).
Proof. unfold put_all. apply foldl_app. Qed.

Lemma run_put_all (f : Z -> Write) (counters : list Z) (bitmap : Bitmap) :
  run (fun i bitmap => put (f i) bitmap) counters bitmap = put_all (f <$> counters) bitmap.
Proof.
  revert bitmap. induction counters as [|i l IH]; intros bitmap; [done|].
  cbn. apply IH.
Qed.

Lemma put_all_Width (ws : list Write) (bitmap : Bitmap) :
  Width (put_all ws bitmap) = Width bitmap /\ Height (put_all ws bitmap) = Height bitmap.
Proof.
  revert bitmap. induction ws as [|w ws IH]; intros bitmap; [done|].
  rewrite put_all_cons. destruct (IH (put w bitmap)) as [-> ->]. done.
Qed.

Lemma put_all_calls (ws : list Write) (bitmap : Bitmap) :
  bm_calls (put_all ws bitmap) = bm_calls bitmap ++ (write_call <$> ws).
Proof.
  revert bitmap. induction ws as [|w ws IH]; intros bitmap.
  - cbn. by rewrite app_nil_r.
  - rewrite put_all_cons, IH. cbn. by rewrite <- app_assoc.
Qed.

(** A pixel that no write addresses keeps its value. *)
Lemma put_all_other (ws : list Write) (bitmap : Bitmap) (p : Z * Z) :
  p ∉ (fst <$> ws) ->
  bm_pixels (put_all ws bitmap) !! p = bm_pixels bitmap !! p.
Proof.
  revert bitmap. induction ws as [|w ws IH]; intros bitmap Hp; [done|].
  rewrite fmap_cons in Hp. apply not_elem_of_cons in Hp as [Hne Hp].
  rewrite put_all_cons, IH by done. unfold put, PutPixels. cbn.
  case_decide; [|done]. apply lookup_insert_ne.
  destruct w as [[x y] c]. cbn in *. congruence.
Qed.

(** A pixel inside the bitmap that exactly one write addresses holds the
    colour of that write. *)
Lemma put_all_written (ws : list Write) (bitmap : Bitmap) (x y : Z) (c : BMM_Color_fl) :
  NoDup (fst <$> ws) -> (x, y, c) ∈ ws -> inside bitmap x y ->
  bm_pixels (put_all ws bitmap) !! (x, y) = Some c.
Proof.
  revert bitmap. induction ws as [|w ws IH]; intros bitmap Hnd Hin Hins.
  { by apply elem_of_nil in Hin. }
  rewrite fmap_cons in Hnd. apply NoDup_cons in Hnd as [Hfresh Hnd].
  rewrite put_all_cons.
  apply elem_of_cons in Hin as [<-|Hin].
  - rewrite put_all_other by done.
    unfold put, PutPixels. cbn. rewrite decide_True by done.
    apply lookup_insert_eq.
  - apply IH; [done..|].
    unfold inside, put, PutPixels. cbn. done.
Qed.

(** ** draw_hline and draw_vline *)

Lemma line_counters_int_exact (start length : Z) :
  is_int start -> is_int (start + length) ->
  line_counters_int start length = line_counters start length.
Proof.
  intros Hs Hl. unfold line_counters_int, line_counters.
  apply list_fmap_ext. intros _ k Hk%list_elem_of_lookup_2%elem_of_seqZ.
  apply to_int_id. unfold line_step. case_decide; unfold is_int in *; lia.
Qed.

Lemma line_counters_last (start length : Z) :
  length <> 0 ->
  last (line_counters start length) = Some (start + length - line_step length).
Proof.
  intros Hl. unfold line_counters. rewrite fmap_last.
  replace (Z.abs length) with (Z.of_nat (S (Z.to_nat (Z.abs length - 1)))) by lia.
  rewrite seqZ_S, last_snoc. cbn. f_equal.
  unfold line_step. case_decide; lia.
Qed.

Lemma draw_hline_put_all (bitmap : Bitmap) (x y length : Z) (pixel : BMM_Color_fl) :
  is_int x -> is_int length ->
  draw_hline bitmap x y length pixel =
  put_all ((fun i => (i, y, pixel)) <$> line_counters_int x length) bitmap.
Proof.
  intros Hx Hl. unfold draw_hline.
  rewrite line_loop_run by done. rewrite steps_left_start by done.
  apply (run_put_all (fun i => (i, y, pixel))).
Qed.

Lemma draw_vline_put_all (bitmap : Bitmap) (x y length : Z) (pixel : BMM_Color_fl) :
  is_int y -> is_int length ->
  draw_vline bitmap x y length pixel =
  put_all ((fun i => (x, i, pixel)) <$> line_counters_int y length) bitmap.
Proof.
  intros Hy Hl. unfold draw_vline.
  rewrite line_loop_run by done. rewrite steps_left_start by done.
  apply (run_put_all (fun i => (x, i, pixel))).
Qed.

(** C10.  For every [int] [length], positive, zero or negative, [draw_hline]
    is a total function (its loop terminates) and issues exactly [|length|]
    single-pixel writes, all in row [y], at the columns the [int] counter
    takes from [x] in steps of [s] ([s = 1] if [length > 0], [-1] otherwise);
    these are [x], [x + s], ..., [x + length - s] whenever [x + length] is
    an [int], that is, unless the source's own arithmetic overflows.  No
    write is issued when [length = 0].  The same holds for [draw_vline] with
    rows and columns exchanged. *)
Theorem draw_line_spec (bitmap : Bitmap) (x y length : Z) (pixel : BMM_Color_fl) :
  is_int x -> is_int y -> is_int length ->
  (draw_hline bitmap x y length pixel =
     put_all ((fun i => (i, y, pixel)) <$> line_counters_int x length) bitmap /\
   bm_calls (draw_hline bitmap x y length pixel) =
     bm_calls bitmap ++ ((fun i => CallPutPixels i y pixel) <$> line_counters_int x length) /\
   Z.of_nat (List.length (line_counters_int x length)) = Z.abs length /\
   (is_int (x + length) -> line_counters_int x length = line_counters x length)) /\
  (draw_vline bitmap x y length pixel =
     put_all ((fun i => (x, i, pixel)) <$> line_counters_int y length) bitmap /\
   bm_calls (draw_vline bitmap x y length pixel) =
     bm_calls bitmap ++ ((fun i => CallPutPixels x i pixel) <$> line_counters_int y length) /\
   Z.of_nat (List.length (line_counters_int y length)) = Z.abs length /\
   (is_int (y + length) -> line_counters_int y length = line_counters y length)) /\
  (length = 0 -> line_counters x length = [] /\ line_counters y length = []) /\
  (length <> 0 ->
     head (line_counters x length) = Some x /\
     last (line_counters x length) = Some (x + length - line_step length)).
Proof.
  intros Hx Hy Hl. repeat split.
  - by apply draw_hline_put_all.
  - rewrite draw_hline_put_all, put_all_calls by done.
    by rewrite <- list_fmap_compose.
  - unfold line_counters_int. rewrite length_fmap, length_seqZ. lia.
  - intros. by apply line_counters_int_exact.
  - by apply draw_vline_put_all.
  - rewrite draw_vline_put_all, put_all_calls by done.
    by rewrite <- list_fmap_compose.
  - unfold line_counters_int. rewrite length_fmap, length_seqZ. lia.
  - intros. by apply line_counters_int_exact.
  - subst length. reflexivity.
  - subst length. reflexivity.
  - unfold line_counters. rewrite (seqZ_cons 0) by lia. cbn. f_equal. lia.
  - by apply line_counters_last.
Qed.

(** ** draw_bracket, make_rect and pre_render *)

Lemma elem_of_line_counters (start length i : Z) :
  i ∈ line_counters start length <->
  (0 < length /\ start <= i < start + length) \/
  (length < 0 /\ start + length < i <= start).
Proof.
  unfold line_counters. rewrite list_elem_of_fmap. unfold line_step. split.
  - intros (k & -> & Hk%elem_of_seqZ). case_decide; lia.
  - intros [[Hl Hi]|[Hl Hi]].
    + exists (i - start). rewrite elem_of_seqZ. case_decide; lia.
    + exists (start - i). rewrite elem_of_seqZ. case_decide; lia.
Qed.

Lemma draw_hline_exact (bitmap : Bitmap) (x y length : Z) (pixel : BMM_Color_fl) :
  is_int x -> is_int length -> is_int (x + length) ->
  draw_hline bitmap x y length pixel = put_all (hline_writes x y length pixel) bitmap.
Proof.
  intros. rewrite draw_hline_put_all, line_counters_int_exact by done. done.
Qed.

Lemma draw_vline_exact (bitmap : Bitmap) (x y length : Z) (pixel : BMM_Color_fl) :
  is_int y -> is_int length -> is_int (y + length) ->
  draw_vline bitmap x y length pixel = put_all (vline_writes x y length pixel) bitmap.
Proof.
  intros. rewrite draw_vline_put_all, line_counters_int_exact by done. done.
Qed.

Lemma draw_bracket_exact (bitmap : Bitmap) (x y width height extent : Z)
    (pixel : BMM_Color_fl) :
  0 <= x -> 0 <= y -> 1 <= width -> 1 <= height -> 0 <= extent < 2 ^ 31 ->
  x + width < 2 ^ 31 -> y + height < 2 ^ 31 ->
  draw_bracket bitmap x y width height extent pixel =
  put_all (bracket_writes x y width height extent pixel) bitmap.
Proof.
  intros Hx Hy Hw Hh He Hxw Hyh.
  unfold draw_bracket, bracket_writes, int_add, int_sub, int_neg.
  change (2 ^ 31) with 2147483648 in *.
  assert (Hint : forall z, - 2147483648 <= z < 2147483648 -> to_int z = z).
  { intros z Hz. apply to_int_id. unfold is_int. change (2 ^ 31) with 2147483648. lia. }
  rewrite !(Hint (Z.min _ _)) by lia.
  rewrite !(Hint (x + width)), !(Hint (y + height)) by lia.
  rewrite !(Hint (x + width - 1)), !(Hint (y + height - 1)) by lia.
  rewrite !(Hint (- Z.min _ _)) by lia.
  rewrite !put_all_app.
  rewrite !draw_hline_exact, !draw_vline_exact
    by (unfold is_int; change (2 ^ 31) with 2147483648; lia).
  reflexivity.
Qed.

Lemma bracket_writes_on_bracket (x y width height extent : Z) (pixel c : BMM_Color_fl)
    (p : Z * Z) :
  1 <= width -> 1 <= height -> 1 <= extent ->
  (p, c) ∈ bracket_writes x y width height extent pixel <->
  on_bracket x y width height extent p /\ c = pixel.
Proof.
  intros Hw Hh He. destruct p as [px py].
  unfold bracket_writes, on_bracket, hline_writes, vline_writes.
  rewrite !elem_of_app, !list_elem_of_fmap. cbn.
  split.
  - intros H.
    repeat match goal with
    | H : _ \/ _ |- _ => destruct H as [H|H]
    end;
      destruct H as (i & [= -> -> ->] & Hi%elem_of_line_counters); (split; [lia|done]).
  - intros [H ->]. cbn in H.
    destruct H as [[[->| ->] [H|H]]|[[->| ->] [H|H]]].
    + left. exists px. rewrite elem_of_line_counters. split; [done|lia].
    + do 2 right; left. exists px. rewrite elem_of_line_counters. split; [done|lia].
    + do 4 right; left. exists px. rewrite elem_of_line_counters. split; [done|lia].
    + do 6 right; left. exists px. rewrite elem_of_line_counters. split; [done|lia].
    + right; left. exists py. rewrite elem_of_line_counters. split; [done|lia].
    + do 5 right; left. exists py. rewrite elem_of_line_counters. split; [done|lia].
    + do 3 right; left. exists py. rewrite elem_of_line_counters. split; [done|lia].
    + do 7 right. exists py. rewrite elem_of_line_counters. split; [done|lia].
Qed.

Lemma make_rect_exact (x y width height : Z) :
  0 <= x -> 0 <= y -> 0 <= width -> 0 <= height ->
  x + width < 2 ^ 31 -> y + height < 2 ^ 31 ->
  make_rect x y width height = mkRECT x y (x + width) (y + height).
Proof.
  intros. unfold make_rect.
  rewrite !to_size_t_id, !to_int_id; [done|unfold_ints; lia..].
Qed.

(** ** blit_tile *)

Section tile_callback_properties.

Context {renderer : Renderer}.

Lemma run_ext {St : Type} (body1 body2 : Z -> St -> St) (l : list Z) (st : St) :
  (forall i st, i ∈ l -> body1 i st = body2 i st) ->
  run body1 l st = run body2 l st.
Proof.
  revert st. induction l as [|i l IH]; intros st Hext; [done|].
  cbn. rewrite Hext by apply list_elem_of_here.
  apply IH. intros j st' Hj. apply Hext. by apply list_elem_of_further.
Qed.

Lemma run_put_all_bind (row : Z -> list Write) (l : list Z) (bitmap : Bitmap) :
  run (fun y bitmap => put_all (row y) bitmap) l bitmap = put_all (l ≫= row) bitmap.
Proof.
  revert bitmap. induction l as [|y l IH]; intros bitmap; [done|].
  rewrite bind_cons, put_all_app. cbn. apply IH.
Qed.

Lemma elem_of_rect_writes (dest_x dest_y width height : Z)
    (color : Z -> Z -> BMM_Color_fl) (w : Write) :
  w ∈ rect_writes dest_x dest_y width height color <->
  exists x y, 0 <= x < width /\ 0 <= y < height /\
              w = (dest_x + x, dest_y + y, color x y).
Proof.
  unfold rect_writes. rewrite list_elem_of_bind. split.
  - intros (y & (x & -> & Hx%elem_of_seqZ)%list_elem_of_fmap & Hy%elem_of_seqZ).
    exists x, y. split_and!; [lia..|done].
  - intros (x & y & Hx & Hy & ->). exists y. split.
    + apply list_elem_of_fmap. exists x. split; [done|]. apply elem_of_seqZ. lia.
    + apply elem_of_seqZ. lia.
Qed.

Lemma fmap_bind_list {A B C : Type} (f : B -> C) (g : A -> list B) (l : list A) :
  f <$> (l ≫= g) = l ≫= (fun a => f <$> g a).
Proof.
  induction l as [|a l IH]; [done|].
  by rewrite !bind_cons, fmap_app, IH.
Qed.

Lemma NoDup_rect_writes (dest_x dest_y width height : Z)
    (color : Z -> Z -> BMM_Color_fl) :
  NoDup (fst <$> rect_writes dest_x dest_y width height color).
Proof.
  unfold rect_writes. rewrite fmap_bind_list.
  apply NoDup_bind.
  - intros y1 y2 p _ _.
    cbn. rewrite <- !list_fmap_compose, !list_elem_of_fmap. cbn.
    intros (x1 & -> & _) (x2 & [= _ Hy] & _). lia.
  - intros y _. cbn. rewrite <- list_fmap_compose.
    apply NoDup_fmap_2_strong; [|apply NoDup_seqZ].
    cbn. intros x1 x2 _ _ [= Hx]. lia.
  - apply NoDup_seqZ.
Qed.

Lemma blit_tile_bitmap (frame : Frame) (tile_x tile_y : Z) (cb : TileCallback) :
  bitmap_ok (m_bitmap cb) ->
  frame_matches_bitmap frame (m_bitmap cb) ->
  tile_in_canvas frame tile_x tile_y ->
  let props := properties (image frame) in
  let t := tile (image frame) tile_x tile_y in
  m_bitmap (blit_tile frame tile_x tile_y cb) =
  put_all (rect_writes (tile_x * m_tile_width props) (tile_y * m_tile_height props)
                       (get_width t) (get_height t) (output_pixel frame t))
          (m_bitmap cb).
Proof.
  intros [HW HH] (Hcw & Hch & _) (Htx & Hty & Htw & Hth & Hw & Hh & Hxw & Hyh) props t.
  fold props in Hcw, Hch, Htw, Hth, Hxw, Hyh. fold t in Hw, Hh, Hxw, Hyh.
  assert (0 <= tile_x * m_tile_width props) as Hdx by (apply Z.mul_nonneg_nonneg; lia).
  assert (0 <= tile_y * m_tile_height props) as Hdy by (apply Z.mul_nonneg_nonneg; lia).
  rewrite to_size_t_id in Hcw, Hch by (unfold_ints; lia).
  unfold blit_tile. cbn. fold props t.
  rewrite count_loop_run, Z.sub_0_r.
  unfold rect_writes. rewrite <- run_put_all_bind.
  apply run_ext. intros y bitmap Hy%elem_of_seqZ.
  rewrite count_loop_run, Z.sub_0_r.
  rewrite <- (run_put_all (fun x => (_ + x, _, output_pixel frame t x y))).
  apply run_ext. intros x bitmap' Hx%elem_of_seqZ.
  unfold put, output_pixel. cbn.
  generalize dependent (tile_x * m_tile_width props).
  generalize dependent (tile_y * m_tile_height props). intros dy ?? dx ??.
  f_equal.
  - rewrite (to_size_t_id dx), (to_size_t_id (dx + x)), to_int_id;
      [done|unfold_ints; lia..].
  - rewrite (to_size_t_id dy), (to_size_t_id (dy + y)), to_int_id;
      [done|unfold_ints; lia..].
Qed.

(** C1.  For a frame that matches the bitmap (the assertions of the callers
    of [blit_tile]) and a tile of that frame, [blit_tile] writes exactly the
    pixels of the rectangle with origin
    [(tile_x * m_tile_width, tile_y * m_tile_height)] and the extent of the
    source tile: it issues one single-pixel write per [(x, y)] with
    [x < tile_width], [y < tile_height], to
    [(tile_x * m_tile_width + x, tile_y * m_tile_height + y)], of the source
    pixel [(x, y)] converted to 32-bit floating point and transformed to the
    output colour space of the frame; afterwards every pixel of the
    rectangle holds that colour and every other pixel is unchanged. *)
Theorem blit_tile_spec (frame : Frame) (tile_x tile_y : Z) (cb : TileCallback) :
  bitmap_ok (m_bitmap cb) ->
  frame_matches_bitmap frame (m_bitmap cb) ->
  tile_in_canvas frame tile_x tile_y ->
  let props := properties (image frame) in
  let t := tile (image frame) tile_x tile_y in
  let dest_x := tile_x * m_tile_width props in
  let dest_y := tile_y * m_tile_height props in
  let writes :=
    rect_writes dest_x dest_y (get_width t) (get_height t) (output_pixel frame t) in
  let bitmap := m_bitmap (blit_tile frame tile_x tile_y cb) in
  bitmap = put_all writes (m_bitmap cb) /\
  bm_calls bitmap = bm_calls (m_bitmap cb) ++ (write_call <$> writes) /\
  (forall w, w ∈ writes <->
     exists x y, 0 <= x < get_width t /\ 0 <= y < get_height t /\
                 w = (dest_x + x, dest_y + y, output_pixel frame t x y)) /\
  NoDup (fst <$> writes) /\
  (forall x y, 0 <= x < get_width t -> 0 <= y < get_height t ->
     bm_pixels bitmap !! (dest_x + x, dest_y + y) = Some (output_pixel frame t x y)) /\
  (forall px py,
     ~ (dest_x <= px < dest_x + get_width t /\ dest_y <= py < dest_y + get_height t) ->
     bm_pixels bitmap !! (px, py) = bm_pixels (m_bitmap cb) !! (px, py)).
Proof.
  intros Hok Hmatch Htile props t dest_x dest_y writes bitmap.
  assert (Hb : bitmap = put_all writes (m_bitmap cb))
    by (by apply blit_tile_bitmap).
  split_and!.
  - done.
  - by rewrite Hb, put_all_calls.
  - intros w. apply elem_of_rect_writes.
  - apply NoDup_rect_writes.
  - intros x y Hx Hy. rewrite Hb.
    apply put_all_written.
    + apply NoDup_rect_writes.
    + apply elem_of_rect_writes. by exists x, y.
    + destruct Hok as [HW HH]. destruct Hmatch as (Hcw & Hch & _).
      destruct Htile as (Htx & Hty & Htw & Hth & Hw & Hh & Hxw & Hyh).
      rewrite to_size_t_id in Hcw, Hch by (unfold_ints; lia).
      fold props in Hcw, Hch, Htw, Hth, Hxw, Hyh. fold t in Hxw, Hyh.
      assert (0 <= tile_x * m_tile_width props) by (apply Z.mul_nonneg_nonneg; lia).
      assert (0 <= tile_y * m_tile_height props) by (apply Z.mul_nonneg_nonneg; lia).
      unfold inside, dest_x, dest_y. lia.
  - intros px py Hout. rewrite Hb. apply put_all_other.
    intros ([p c] & Hp & (x & y & Hx & Hy & [= -> ->])%elem_of_rect_writes)%list_elem_of_fmap.
    cbn in Hp. injection Hp as -> ->. lia.
Qed.

(** ** post_render *)

Lemma run_row {St : Type} (f : Z * Z -> St -> St) (y : Z) (xs : list Z) (st : St) :
  run (fun x st => f (x, y) st) xs st =
  foldl (fun st xy => f xy st) st ((fun x => (x, y)) <$> xs).
Proof.
  revert st. induction xs as [|x xs IH]; intros st; [done|]. cbn. apply IH.
Qed.

Lemma run_rows {St : Type} (f : Z * Z -> St -> St) (xs ys : list Z) (st : St) :
  run (fun y st => run (fun x st => f (x, y) st) xs st) ys st =
  foldl (fun st xy => f xy st) st (ys ≫= fun y => (fun x => (x, y)) <$> xs).
Proof.
  revert st. induction ys as [|y ys IH]; intros st; [done|].
  rewrite bind_cons, foldl_app, <- run_row. cbn. apply IH.
Qed.

Lemma elem_of_all_tiles (props : CanvasProperties) (x y : Z) :
  (x, y) ∈ all_tiles props <->
  0 <= x < m_tile_count_x props /\ 0 <= y < m_tile_count_y props.
Proof.
  unfold all_tiles. rewrite list_elem_of_bind. split.
  - intros (y' & (x' & [= -> ->] & Hx%elem_of_seqZ)%list_elem_of_fmap & Hy%elem_of_seqZ).
    lia.
  - intros [Hx Hy]. exists y. split.
    + apply list_elem_of_fmap. exists x. split; [done|]. apply elem_of_seqZ. lia.
    + apply elem_of_seqZ. lia.
Qed.

Lemma NoDup_all_tiles (props : CanvasProperties) : NoDup (all_tiles props).
Proof.
  unfold all_tiles. apply NoDup_bind.
  - intros y1 y2 p _ _. rewrite !list_elem_of_fmap.
    intros (x1 & -> & _) (x2 & [= _ Hy] & _). done.
  - intros y _. apply NoDup_fmap_2_strong; [|apply NoDup_seqZ].
    intros x1 x2 _ _ [= Hx]. done.
  - apply NoDup_seqZ.
Qed.

Lemma blit_all_tiles (frame : Frame) (cb : TileCallback) :
  count_loop (fun y cb =>
    count_loop (fun x cb => blit_tile frame x y cb)
               (m_tile_count_x (properties (image frame))) 0 cb)
    (m_tile_count_y (properties (image frame))) 0 cb =
  blit_tiles frame (all_tiles (properties (image frame))) cb.
Proof.
  rewrite count_loop_run, Z.sub_0_r.
  etrans; [apply run_ext; intros y st _; rewrite count_loop_run, Z.sub_0_r; reflexivity|].
  apply (run_rows (fun xy cb => blit_tile frame xy.1 xy.2 cb)).
Qed.

(** C2.  For every frame, [post_render] performs [blit_tile] for each tile
    index [(x, y)] with [x < m_tile_count_x] and [y < m_tile_count_y], each
    exactly once (row by row), and then refreshes the display window with no
    rectangle, that is, entirely; the refresh is the last call the bitmap
    receives. *)
Theorem post_render_spec (frame : Frame) (cb : TileCallback) :
  let props := properties (image frame) in
  let tiles := all_tiles props in
  let blitted := blit_tiles frame tiles cb in
  NoDup tiles /\
  (forall x y, (x, y) ∈ tiles <->
     0 <= x < m_tile_count_x props /\ 0 <= y < m_tile_count_y props) /\
  post_render frame cb = with_bitmap (RefreshWindow None (m_bitmap blitted)) blitted /\
  bm_calls (m_bitmap (post_render frame cb)) =
    bm_calls (m_bitmap blitted) ++ [CallRefreshWindow None] /\
  bm_pixels (m_bitmap (post_render frame cb)) = bm_pixels (m_bitmap blitted).
Proof.
  intros props tiles blitted.
  assert (Hpost : post_render frame cb =
                  with_bitmap (RefreshWindow None (m_bitmap blitted)) blitted).
  { unfold post_render. by rewrite blit_all_tiles. }
  split_and!.
  - apply NoDup_all_tiles.
  - intros x y. apply elem_of_all_tiles.
  - done.
  - by rewrite Hpost.
  - by rewrite Hpost.
Qed.

(** ** post_render_tile *)

(** C3, as amended.  For a frame that matches the bitmap (the assertions of
    [post_render_tile]) and a tile of that frame, [post_render_tile] blits
    exactly that tile and then refreshes exactly the rectangle with left/top
    corner [(tile_x * m_tile_width, tile_y * m_tile_height)] and right and
    bottom edges [left + tile.get_width()] and [top + tile.get_height()], the
    actual dimensions of the tile.  The rectangle returned by [make_rect]
    satisfies [right - left = width] and [bottom - top = height] whenever
    [x + width] and [y + height] are below [2^31], the range of a [LONG]. *)
Theorem post_render_tile_spec (frame : Frame) (tile_x tile_y : Z)
    (cb : TileCallback) :
  bitmap_ok (m_bitmap cb) ->
  frame_matches_bitmap frame (m_bitmap cb) ->
  tile_in_canvas frame tile_x tile_y ->
  let props := properties (image frame) in
  let t := tile (image frame) tile_x tile_y in
  let left := tile_x * m_tile_width props in
  let top := tile_y * m_tile_height props in
  let rect := mkRECT left top (left + get_width t) (top + get_height t) in
  let blitted := blit_tile frame tile_x tile_y cb in
  m_bitmap (post_render_tile frame tile_x tile_y cb) =
    RefreshWindow (Some rect) (m_bitmap blitted) /\
  bm_calls (m_bitmap (post_render_tile frame tile_x tile_y cb)) =
    bm_calls (m_bitmap cb) ++
    (write_call <$> rect_writes left top (get_width t) (get_height t)
                                (output_pixel frame t)) ++
    [CallRefreshWindow (Some rect)] /\
  (forall x y width height,
     0 <= x -> 0 <= y -> 0 <= width -> 0 <= height ->
     x + width < 2 ^ 31 -> y + height < 2 ^ 31 ->
     rect_left (make_rect x y width height) = x /\
     rect_top (make_rect x y width height) = y /\
     rect_right (make_rect x y width height)
       - rect_left (make_rect x y width height) = width /\
     rect_bottom (make_rect x y width height)
       - rect_top (make_rect x y width height) = height).
Proof.
  intros Hok Hmatch Htile props t left top rect blitted.
  assert (Hrect : make_rect (to_size_t left) (to_size_t top) (get_width t) (get_height t)
                  = rect).
  { destruct Hok as [HW HH]. destruct Hmatch as (Hcw & Hch & _).
    destruct Htile as (Htx & Hty & Htw & Hth & Hw & Hh & Hxw & Hyh).
    rewrite to_size_t_id in Hcw, Hch by (unfold_ints; lia).
    fold props in Hcw, Hch, Htw, Hth, Hxw, Hyh. fold t in Hw, Hh, Hxw, Hyh.
    assert (0 <= left) by (apply Z.mul_nonneg_nonneg; lia).
    assert (0 <= top) by (apply Z.mul_nonneg_nonneg; lia).
    fold left in Hxw. fold top in Hyh.
    rewrite !to_size_t_id by (unfold_ints; lia).
    apply make_rect_exact; lia. }
  assert (Hpost : m_bitmap (post_render_tile frame tile_x tile_y cb) =
                  RefreshWindow (Some rect) (m_bitmap blitted)).
  { unfold post_render_tile. cbn. fold props t left top. by rewrite Hrect. }
  split_and!.
  - done.
  - rewrite Hpost.
    change (bm_calls (RefreshWindow (Some rect) (m_bitmap blitted)))
      with (bm_calls (m_bitmap blitted) ++ [CallRefreshWindow (Some rect)]).
    unfold blitted. rewrite blit_tile_bitmap, put_all_calls by done.
    by rewrite <- app_assoc.
  - intros x y width height ? ? ? ? ? ?.
    rewrite make_rect_exact by done. cbn. lia.
Qed.

(** ** The rendered-tile counter *)

Lemma blit_tiles_count (frame : Frame) (tiles : list (Z * Z))
    (cb : TileCallback) :
  m_rendered_tile_count (blit_tiles frame tiles cb) = m_rendered_tile_count cb.
Proof.
  revert cb. induction tiles as [|xy tiles IH]; intros cb; [done|].
  change (blit_tiles frame (xy :: tiles) cb)
    with (blit_tiles frame tiles (blit_tile frame (xy.1) (xy.2) cb)).
  by rewrite IH.
Qed.

Lemma post_render_tiles_count (calls : list (Frame * Z * Z))
    (cb : TileCallback) :
  m_rendered_tile_count (post_render_tiles calls cb) =
  to_uint32 (m_rendered_tile_count cb + Z.of_nat (length calls)) \/
  calls = [].
Proof.
  revert cb. induction calls as [|c calls IH]; intros cb; [by right|left].
  change (post_render_tiles (c :: calls) cb)
    with (post_render_tiles calls (post_render_tile (c.1.1) (c.1.2) (c.2) cb)).
  destruct (IH (post_render_tile (c.1.1) (c.1.2) (c.2) cb)) as [->| ->].
  - cbn [post_render_tile m_rendered_tile_count with_bitmap blit_tile].
    unfold atomic_inc32. rewrite length_cons. int_arith.
  - reflexivity.
Qed.

(** C4, as amended.  Every call to [post_render_tile] increments the counter
    [*m_rendered_tile_count] by one, as a 32-bit unsigned integer;
    [pre_render], [post_render] and [blit_tile] leave it unchanged; after [n]
    sequential calls of [post_render_tile] the counter equals its initial
    value plus [n] modulo [2^32], hence its initial value plus [n] as long as
    that sum is below [2^32]. *)
Theorem rendered_tile_count_spec (cb : TileCallback)
    (frame : Frame) (tile_x tile_y x y width height : Z)
    (calls : list (Frame * Z * Z)) :
  is_uint32 (m_rendered_tile_count cb) ->
  let count := m_rendered_tile_count cb in
  let n := Z.of_nat (length calls) in
  m_rendered_tile_count (post_render_tile frame tile_x tile_y cb) = (count + 1) mod 2 ^ 32 /\
  (count + 1 < 2 ^ 32 ->
   m_rendered_tile_count (post_render_tile frame tile_x tile_y cb) = count + 1) /\
  m_rendered_tile_count (pre_render x y width height cb) = count /\
  m_rendered_tile_count (post_render frame cb) = count /\
  m_rendered_tile_count (blit_tile frame tile_x tile_y cb) = count /\
  m_rendered_tile_count (post_render_tiles calls cb) = (count + n) mod 2 ^ 32 /\
  (count + n < 2 ^ 32 -> m_rendered_tile_count (post_render_tiles calls cb) = count + n).
Proof.
  intros Hc count n.
  assert (Hn : m_rendered_tile_count (post_render_tiles calls cb) = (count + n) mod 2 ^ 32).
  { destruct (post_render_tiles_count calls cb) as [->| ->]; [done|].
    cbn. unfold n. cbn. rewrite Z.add_0_r. symmetry. apply Z.mod_small. done. }
  split_and!.
  - done.
  - intros Hlt. cbn. unfold atomic_inc32, to_uint32. apply Z.mod_small.
    unfold is_uint32 in Hc. fold count in Hc |- *. lia.
  - done.
  - unfold post_render. cbn. rewrite blit_all_tiles. apply blit_tiles_count.
  - done.
  - done.
  - intros Hlt. rewrite Hn. apply Z.mod_small. unfold is_uint32 in Hc.
    fold count in Hc. lia.
Qed.

End tile_callback_properties.

(** ** pre_render *)

(** C5, as amended.  For every tile rectangle [(x, y, width, height)] with
    [width >= 1], [height >= 1] and [x + width], [y + height] below [2^31]
    (so that every coordinate is an [int]), [pre_render] draws a white
    bracket around the tile: one horizontal segment of [min 5 width] pixels
    and one vertical segment of [min 5 height] pixels at each of the corners
    [(x, y)], [(x + width - 1, y)], [(x, y + height - 1)] and
    [(x + width - 1, y + height - 1)], the segments at the right and bottom
    corners drawn inward, and then refreshes exactly the rectangle of the
    tile. *)
Theorem pre_render_spec (cb : TileCallback) (x y width height : Z) :
  1 <= width -> 1 <= height -> 0 <= x -> 0 <= y ->
  x + width < 2 ^ 31 -> y + height < 2 ^ 31 ->
  let rect := mkRECT x y (x + width) (y + height) in
  let writes := bracket_writes x y width height 5 white in
  m_bitmap (pre_render x y width height cb) =
    RefreshWindow (Some rect) (put_all writes (m_bitmap cb)) /\
  bm_calls (m_bitmap (pre_render x y width height cb)) =
    bm_calls (m_bitmap cb) ++ (write_call <$> writes) ++ [CallRefreshWindow (Some rect)] /\
  (forall p c, (p, c) ∈ writes <-> on_bracket x y width height 5 p /\ c = white).
Proof.
  intros Hw Hh Hx Hy Hxw Hyh rect writes.
  assert (Hpre : m_bitmap (pre_render x y width height cb) =
                 RefreshWindow (Some rect) (put_all writes (m_bitmap cb))).
  { unfold pre_render. cbn.
    rewrite make_rect_exact by lia.
    rewrite !to_int_id by (unfold_ints; lia).
    rewrite draw_bracket_exact by lia. done. }
  split_and!.
  - done.
  - rewrite Hpre. cbn. rewrite put_all_calls. by rewrite <- app_assoc.
  - intros p c. apply bracket_writes_on_bracket; lia.
Qed.

(** ** The dialog *)

Section param_dlg_properties.

Context {resources : Resources}.

Lemma dialog_proc_INITDIALOG (hWnd : HWND) (wParam : Z) (this : addr)
    (obj : Impl) (w : World) :
  impls w !! this = Some obj ->
  dialog_proc hWnd WM_INITDIALOG wParam (LPARAM_of_ptr this) w =
  let r := create_controls hWnd obj (DLSetWindowLongPtr hWnd this (host w)) in
  Some (mkWorld (r.2) (<[this := r.1]> (impls w)) (settings_objects w), TRUE).
Proof.
  intros Hobj. unfold dialog_proc.
  rewrite !decide_True by done.
  cbn -[create_controls DLSetWindowLongPtr].
  rewrite Hobj. cbn -[create_controls DLSetWindowLongPtr].
  destruct (create_controls hWnd obj (DLSetWindowLongPtr hWnd this (host w))) as [obj' h'].
  reflexivity.
Qed.

Lemma dialog_proc_DESTROY (hWnd : HWND) (wParam lParam : Z) (w : World) :
  dialog_proc hWnd WM_DESTROY wParam lParam w = Some (w, TRUE).
Proof. reflexivity. Qed.

Lemma dialog_proc_COMMAND (hWnd : HWND) (wParam lParam : Z) (this : addr)
    (obj : Impl) (w : World) :
  DLGetWindowLongPtr hWnd (host w) = Some this ->
  impls w !! this = Some obj ->
  dialog_proc hWnd WM_COMMAND wParam lParam w =
  '(obj, result) ← on_command (host w) obj wParam lParam;
  Some (with_impl this obj w, result).
Proof.
  intros Hptr Hobj. unfold dialog_proc.
  rewrite !(decide_False (P := WM_COMMAND = WM_INITDIALOG)) by done.
  rewrite (decide_False (P := WM_COMMAND = WM_DESTROY)) by done.
  rewrite decide_True by done.
  rewrite Hptr. cbn. rewrite Hobj. reflexivity.
Qed.

Lemma dialog_proc_other (hWnd : HWND) (uMsg wParam lParam : Z) (w : World) :
  uMsg <> WM_INITDIALOG -> uMsg <> WM_DESTROY -> uMsg <> WM_COMMAND ->
  dialog_proc hWnd uMsg wParam lParam w = Some (w, FALSE).
Proof.
  intros. unfold dialog_proc. by rewrite !decide_False by done.
Qed.

Lemma create_controls_host (hWnd : HWND) (obj : Impl) (h : Host) :
  let edit := GetDlgItem hWnd IDC_TEXT_PIXELSAMPLES in
  let spinner := GetDlgItem hWnd IDC_SPINNER_PIXELSAMPLES in
  let r := create_controls hWnd obj h in
  r.1 = mkImpl (m_in_progress obj) (m_settings obj) (m_rollup_sampling obj)
               (Some edit) (Some spinner) /\
  rollup_pages (r.2) = rollup_pages h /\
  edit_interfaces (r.2) = {[+ edit +]} ⊎ edit_interfaces h /\
  spinner_interfaces (r.2) = {[+ spinner +]} ⊎ spinner_interfaces h /\
  edit_ints (r.2) = edit_ints h /\
  spinners (r.2) =
    <[spinner := mkSpinner (Some (edit, EDITTYPE_INT)) (Some (1, 1000000))
                           (Some (to_int (m_pixel_samples defaults)))
                           (Some (to_int (m_pixel_samples (m_settings obj))))]>
      (spinners h).
Proof.
  intros edit spinner r. split_and!; try reflexivity.
  unfold r, create_controls, SetValue, SetResetValue, SetLimits, LinkToEdit,
    with_spinner, spinner_of, GetISpinner, GetICustEdit.
  cbn [spinners snd fst]. fold edit spinner.
  rewrite !lookup_insert_eq. cbn [default spin_edit spin_limits spin_reset_value spin_value].
  by rewrite !insert_insert_eq.
Qed.

Lemma Impl_ctor_spec (this : addr) (in_progress : bool)
    (s : RendererSettings) (w : World) :
  let page := fresh (dom (rollup_pages (host w))) in
  let edit := GetDlgItem page IDC_TEXT_PIXELSAMPLES in
  let spinner := GetDlgItem page IDC_SPINNER_PIXELSAMPLES in
  exists w1,
    Impl_ctor this in_progress s w = Some w1 /\
    rollup_pages (host w) !! page = None /\
    rollup_pages (host w1) =
      <[page := mkRollupPage IDD_FORMVIEW_RENDERERPARAMS "Sampling" (LPARAM_of_ptr this)
                              (Some this)]>
        (rollup_pages (host w)) /\
    edit_interfaces (host w1) = {[+ edit +]} ⊎ edit_interfaces (host w) /\
    spinner_interfaces (host w1) = {[+ spinner +]} ⊎ spinner_interfaces (host w) /\
    edit_ints (host w1) = edit_ints (host w) /\
    spinners (host w1) =
      <[spinner := mkSpinner (Some (edit, EDITTYPE_INT)) (Some (1, 1000000))
                             (Some (to_int (m_pixel_samples defaults)))
                             (Some (to_int (m_pixel_samples s)))]>
        (spinners (host w)) /\
    impls w1 = <[this := mkImpl in_progress s (Some page) (Some edit) (Some spinner)]>
                 (impls w) /\
    settings_objects w1 = settings_objects w.
Proof.
  intros page edit spinner.
  unfold Impl_ctor, AddRollupPage.
  erewrite dialog_proc_INITDIALOG by apply lookup_insert_eq.
  cbn -[create_controls DLSetWindowLongPtr fresh].
  fold page.
  match goal with |- context [create_controls page ?o ?h] =>
    destruct (create_controls_host page o h) as (Hobj & Hpages & Hedit & Hspin & Hints & Hsp);
    destruct (create_controls page o h) as [obj' h'] end.
  cbn [fst snd] in *. subst obj'.
  rewrite lookup_insert_eq. cbn -[fresh].
  eexists. split; [reflexivity|]. cbn -[fresh].
  split_and!.
  - apply not_elem_of_dom, is_fresh.
  - rewrite Hpages. unfold DLSetWindowLongPtr. cbn -[fresh]. fold page.
    by rewrite alter_insert_eq.
  - by rewrite Hedit.
  - by rewrite Hspin.
  - by rewrite Hints.
  - by rewrite Hsp.
  - by rewrite !insert_insert_eq.
  - done.
Qed.

Lemma on_command_cases (h : Host) (obj : Impl) (wParam lParam : Z)
    (edit : Control) :
  m_text_pixelsamples obj = Some edit ->
  (LOWORD wParam = IDC_TEXT_PIXELSAMPLES /\
   on_command h obj wParam lParam =
     Some (mkImpl (m_in_progress obj)
                  (mkRendererSettings (to_size_t (GetInt edit h)))
                  (m_rollup_sampling obj) (m_text_pixelsamples obj)
                  (m_spinner_pixelsamples obj), TRUE)) \/
  (LOWORD wParam <> IDC_TEXT_PIXELSAMPLES /\
   on_command h obj wParam lParam = Some (obj, FALSE)).
Proof.
  intros Hedit. unfold on_command.
  destruct (decide (LOWORD wParam = IDC_TEXT_PIXELSAMPLES)); [left|right]; split; try done.
  by rewrite Hedit.
Qed.

Lemma command_step (page : HWND) (this : addr) (edit spinner : Control)
    (wParam lParam : Z) (w : World) :
  dialog_ready page this edit spinner w ->
  exists w' result,
    dialog_proc page WM_COMMAND wParam lParam w = Some (w', result) /\
    host w' = host w /\
    settings_objects w' = settings_objects w /\
    dom (impls w') = dom (impls w) /\
    dialog_ready page this edit spinner w'.
Proof.
  intros (Hptr & obj & Hobj & Hpage & Hedit & Hspin).
  rewrite (dialog_proc_COMMAND _ _ _ this obj) by done.
  destruct (on_command_cases (host w) obj wParam lParam edit Hedit)
    as [[_ ->]|[_ ->]]; cbn; eexists _, _; (split; [reflexivity|]).
  - split_and!; [done..| |].
    + cbn. apply dom_insert_lookup_L. by eexists.
    + split; [done|]. eexists. split; [apply lookup_insert_eq|]. done.
  - split_and!; [done..| |].
    + cbn. apply dom_insert_lookup_L. by eexists.
    + split; [done|]. exists obj. split; [apply lookup_insert_eq|]. done.
Qed.

Lemma send_commands_spec (page : HWND) (this : addr) (edit spinner : Control)
    (cmds : list (Z * Z)) (w : World) :
  dialog_ready page this edit spinner w ->
  exists w',
    send_commands page cmds w = Some w' /\
    host w' = host w /\
    settings_objects w' = settings_objects w /\
    dom (impls w') = dom (impls w) /\
    dialog_ready page this edit spinner w'.
Proof.
  revert w. induction cmds as [|cmd cmds IH]; intros w Hready.
  - exists w. done.
  - destruct (command_step page this edit spinner (cmd.1) (cmd.2) w Hready)
      as (w1 & result & Hstep & Hhost & Hset & Hdom & Hready1).
    destruct (IH w1 Hready1) as (w' & Hrest & Hhost' & Hset' & Hdom' & Hready').
    exists w'. cbn. rewrite Hstep. cbn. rewrite Hrest.
    split_and!; [done|congruence..|done].
Qed.

Lemma dtor_spec (page : HWND) (dlg : AppleseedRendererParamDlg)
    (edit spinner : Control) (w : World) :
  dialog_ready page (impl dlg) edit spinner w ->
  exists w',
    AppleseedRendererParamDlg_dtor dlg w = Some w' /\
    rollup_pages (host w') = delete page (rollup_pages (host w)) /\
    edit_interfaces (host w') = edit_interfaces (host w) ∖ {[+ edit +]} /\
    spinner_interfaces (host w') = spinner_interfaces (host w) ∖ {[+ spinner +]} /\
    edit_ints (host w') = edit_ints (host w) /\
    spinners (host w') = spinners (host w) /\
    impls w' = delete (impl dlg) (impls w) /\
    settings_objects w' = settings_objects w.
Proof.
  intros (Hptr & obj & Hobj & Hpage & Hedit & Hspin).
  unfold AppleseedRendererParamDlg_dtor, Impl_dtor, destroy_controls, DeleteRollupPage.
  rewrite Hobj. cbn. rewrite Hedit. cbn. rewrite Hspin. cbn. rewrite Hpage. cbn.
  eexists. split; [reflexivity|]. done.
Qed.

Lemma ctor_spec (in_progress : bool) (settings : addr)
    (s : RendererSettings) (w : World) :
  settings_objects w !! settings = Some s ->
  let this := fresh (dom (impls w)) in
  let page := fresh (dom (rollup_pages (host w))) in
  let edit := GetDlgItem page IDC_TEXT_PIXELSAMPLES in
  let spinner := GetDlgItem page IDC_SPINNER_PIXELSAMPLES in
  exists w1,
    AppleseedRendererParamDlg_ctor in_progress settings w =
      Some (mkAppleseedRendererParamDlg this settings, w1) /\
    impls w !! this = None /\
    rollup_pages (host w) !! page = None /\
    rollup_pages (host w1) =
      <[page := mkRollupPage IDD_FORMVIEW_RENDERERPARAMS "Sampling" (LPARAM_of_ptr this)
                              (Some this)]>
        (rollup_pages (host w)) /\
    edit_interfaces (host w1) = {[+ edit +]} ⊎ edit_interfaces (host w) /\
    spinner_interfaces (host w1) = {[+ spinner +]} ⊎ spinner_interfaces (host w) /\
    impls w1 = <[this := mkImpl in_progress s (Some page) (Some edit) (Some spinner)]>
                 (impls w) /\
    settings_objects w1 = settings_objects w /\
    dialog_ready page this edit spinner w1.
Proof.
  intros Hs this page edit spinner.
  destruct (Impl_ctor_spec this in_progress s w)
    as (w1 & Hctor & Hfresh & Hpages & Hedit & Hspin & _ & _ & Himpls & Hset).
  exists w1. unfold AppleseedRendererParamDlg_ctor. rewrite Hs. cbn -[fresh].
  fold this. rewrite Hctor. cbn -[fresh].
  split_and!; try done.
  - apply not_elem_of_dom, is_fresh.
  - split.
    + unfold DLGetWindowLongPtr. fold page in Hpages. rewrite Hpages.
      by rewrite lookup_insert_eq.
    + eexists. rewrite Himpls. split; [apply lookup_insert_eq|done].
Qed.

Lemma AcceptParams_spec (dlg : AppleseedRendererParamDlg) (w : World) (obj : Impl)
    (s : RendererSettings) :
  impls w !! impl dlg = Some obj ->
  settings_objects w !! dlg_m_settings dlg = Some s ->
  AcceptParams dlg w =
  Some (mkWorld (host w) (impls w)
                (<[dlg_m_settings dlg := m_settings obj]> (settings_objects w))).
Proof. intros Hobj Hs. unfold AcceptParams. rewrite Hobj. cbn. by rewrite Hs. Qed.

(** C6, as amended.  The command handler manages exactly one numeric
    parameter.  For every [WM_COMMAND] whose low-order control identifier is
    that of the pixel-samples edit control, [on_command] reads the [int]
    shown by that control, stores it converted to [size_t] in
    [m_pixel_samples] of the internal settings and returns [TRUE]; the
    stored value is the value read when that is non-negative, and the value
    read plus [2^64] when it is negative.  For every other control
    identifier it returns [FALSE] and leaves the [Impl] object, hence the
    internal settings, as it was. *)
Theorem on_command_spec (h : Host) (obj : Impl) (wParam lParam : Z)
    (edit : Control) :
  m_text_pixelsamples obj = Some edit ->
  let value := GetInt edit h in
  is_int value /\
  (LOWORD wParam = IDC_TEXT_PIXELSAMPLES ->
     on_command h obj wParam lParam =
       Some (mkImpl (m_in_progress obj) (mkRendererSettings (to_size_t value))
                    (m_rollup_sampling obj) (m_text_pixelsamples obj)
                    (m_spinner_pixelsamples obj), TRUE) /\
     (0 <= value -> to_size_t value = value) /\
     (value < 0 -> to_size_t value = value + 2 ^ 64)) /\
  (LOWORD wParam <> IDC_TEXT_PIXELSAMPLES ->
     on_command h obj wParam lParam = Some (obj, FALSE)).
Proof.
  intros Hedit value.
  assert (Hint : is_int value) by apply to_int_is_int.
  split; [done|]. split.
  - intros Hid.
    destruct (on_command_cases h obj wParam lParam edit Hedit) as [[_ ->]|[Hne _]];
      [|done].
    split; [done|]. split; intros; int_arith.
  - intros Hid.
    destruct (on_command_cases h obj wParam lParam edit Hedit) as [[He _]|[_ ->]]; done.
Qed.

(** C9, as amended.  [create_controls] links the pixel-samples spinner to the
    pixel-samples edit box as an integer field, gives it the inclusive limits
    [[1, 1000000]], sets its reset value to the default pixel sample count of
    [RendererSettings::defaults()] converted to [int], and sets its value to
    [m_pixel_samples] of the current settings converted to [int]; each
    conversion leaves a count below [2^31] as it is. *)
Theorem create_controls_spec (hWnd : HWND) (obj : Impl) (h : Host) :
  let edit := GetDlgItem hWnd IDC_TEXT_PIXELSAMPLES in
  let spinner := GetDlgItem hWnd IDC_SPINNER_PIXELSAMPLES in
  let samples := m_pixel_samples (m_settings obj) in
  let r := create_controls hWnd obj h in
  spinners (r.2) !! spinner =
    Some (mkSpinner (Some (edit, EDITTYPE_INT)) (Some (1, 1000000))
                    (Some (to_int (m_pixel_samples defaults)))
                    (Some (to_int samples))) /\
  (0 <= samples < 2 ^ 31 -> to_int samples = samples) /\
  (0 <= m_pixel_samples defaults < 2 ^ 31 ->
   to_int (m_pixel_samples defaults) = m_pixel_samples defaults) /\
  m_text_pixelsamples (r.1) = Some edit /\
  m_spinner_pixelsamples (r.1) = Some spinner /\
  m_settings (r.1) = m_settings obj.
Proof.
  intros edit spinner samples r.
  destruct (create_controls_host hWnd obj h) as (Hobj & _ & _ & _ & _ & Hsp).
  fold r in Hobj, Hsp. rewrite Hobj, Hsp.
  split_and!; try done.
  - apply lookup_insert_eq.
  - intros. apply to_int_id. unfold_ints. lia.
  - intros. apply to_int_id. unfold_ints. lia.
Qed.

(** C7.  Constructing an [AppleseedRendererParamDlg] adds exactly one rollup
    page, titled "Sampling", under a handle that was not in use, and acquires
    the edit and the spinner control of that page.  Whatever commands the
    page receives afterwards, destroying the dialog releases the edit and the
    spinner control and deletes exactly that page: the rollup pages of the
    host, and the control interfaces it has handed out, are then what they
    were before the construction. *)
Theorem rollup_page_lifecycle (in_progress : bool) (settings : addr)
    (s : RendererSettings) (cmds : list (Z * Z)) (w : World) :
  settings_objects w !! settings = Some s ->
  let page := fresh (dom (rollup_pages (host w))) in
  let edit := GetDlgItem page IDC_TEXT_PIXELSAMPLES in
  let spinner := GetDlgItem page IDC_SPINNER_PIXELSAMPLES in
  exists dlg w1 w2 w3,
    AppleseedRendererParamDlg_ctor in_progress settings w = Some (dlg, w1) /\
    rollup_pages (host w) !! page = None /\
    rollup_pages (host w1) =
      <[page := mkRollupPage IDD_FORMVIEW_RENDERERPARAMS "Sampling" (LPARAM_of_ptr (impl dlg))
                              (Some (impl dlg))]>
        (rollup_pages (host w)) /\
    edit_interfaces (host w1) = {[+ edit +]} ⊎ edit_interfaces (host w) /\
    spinner_interfaces (host w1) = {[+ spinner +]} ⊎ spinner_interfaces (host w) /\
    send_commands page cmds w1 = Some w2 /\
    rollup_pages (host w2) = rollup_pages (host w1) /\
    AppleseedRendererParamDlg_dtor dlg w2 = Some w3 /\
    rollup_pages (host w3) = delete page (rollup_pages (host w2)) /\
    edit_interfaces (host w3) = edit_interfaces (host w2) ∖ {[+ edit +]} /\
    spinner_interfaces (host w3) = spinner_interfaces (host w2) ∖ {[+ spinner +]} /\
    rollup_pages (host w3) = rollup_pages (host w) /\
    edit_interfaces (host w3) = edit_interfaces (host w) /\
    spinner_interfaces (host w3) = spinner_interfaces (host w).
Proof.
  intros Hs page edit spinner.
  destruct (ctor_spec in_progress settings s w Hs)
    as (w1 & Hctor & _ & Hfresh & Hpages & Hedit & Hspin & _ & _ & Hready).
  destruct (send_commands_spec _ _ _ _ cmds w1 Hready)
    as (w2 & Hcmds & Hhost & _ & _ & Hready2).
  destruct (dtor_spec page (mkAppleseedRendererParamDlg (fresh (dom (impls w))) settings)
              edit spinner w2 Hready2)
    as (w3 & Hdtor & Hpages3 & Hedit3 & Hspin3 & _).
  eexists _, w1, w2, w3. split; [exact Hctor|].
  cbn [impl]. rewrite Hhost in *.
  split_and!; try done.
  - rewrite Hpages3, Hpages. fold page. rewrite delete_insert_eq.
    by apply delete_id.
  - rewrite Hedit3, Hedit. fold edit. multiset_solver.
  - rewrite Hspin3, Hspin. fold spinner. multiset_solver.
Qed.

(** C8.  The dialog works on its own copy of the settings.  Constructing it
    leaves the caller's [RendererSettings] object unchanged and copies it
    into the [Impl] object; no sequence of commands sent to the page changes
    any caller-owned settings object; [AcceptParams] makes the caller's
    object equal to the internal copy and changes no other object; destroying
    the dialog changes no settings object, so that without [AcceptParams]
    the caller's settings are what they were before the construction. *)
Theorem caller_settings_spec (in_progress : bool) (settings : addr)
    (s : RendererSettings) (cmds : list (Z * Z)) (w : World) :
  settings_objects w !! settings = Some s ->
  let page := fresh (dom (rollup_pages (host w))) in
  exists dlg w1 w2 obj w3 w4 w5,
    AppleseedRendererParamDlg_ctor in_progress settings w = Some (dlg, w1) /\
    dlg_m_settings dlg = settings /\
    settings_objects w1 = settings_objects w /\
    m_settings <$> impls w1 !! impl dlg = Some s /\
    send_commands page cmds w1 = Some w2 /\
    settings_objects w2 = settings_objects w /\
    impls w2 !! impl dlg = Some obj /\
    AcceptParams dlg w2 = Some w3 /\
    settings_objects w3 = <[settings := m_settings obj]> (settings_objects w) /\
    settings_objects w3 !! settings = Some (m_settings obj) /\
    impls w3 = impls w2 /\
    AppleseedRendererParamDlg_dtor dlg w2 = Some w4 /\
    settings_objects w4 = settings_objects w /\
    AppleseedRendererParamDlg_dtor dlg w3 = Some w5 /\
    settings_objects w5 = settings_objects w3.
Proof.
  intros Hs page.
  destruct (ctor_spec in_progress settings s w Hs)
    as (w1 & Hctor & _ & _ & _ & _ & _ & Himpls & Hset & Hready).
  destruct (send_commands_spec _ _ _ _ cmds w1 Hready)
    as (w2 & Hcmds & Hhost & Hset2 & _ & Hready2).
  set (dlg := mkAppleseedRendererParamDlg (fresh (dom (impls w))) settings) in *.
  pose proof Hready2 as (Hptr & obj & Hobj & Hfields).
  assert (Hs2 : settings_objects w2 !! dlg_m_settings dlg = Some s) by (by rewrite Hset2, Hset).
  pose proof (AcceptParams_spec dlg w2 obj s Hobj Hs2) as Haccept.
  set (w3 := mkWorld (host w2) (impls w2)
               (<[dlg_m_settings dlg := m_settings obj]> (settings_objects w2))) in *.
  assert (Hready3 : dialog_ready page (impl dlg) (GetDlgItem page IDC_TEXT_PIXELSAMPLES)
                      (GetDlgItem page IDC_SPINNER_PIXELSAMPLES) w3).
  { split; [exact Hptr|]. exists obj. done. }
  destruct (dtor_spec page dlg _ _ w2 Hready2) as (w4 & Hdtor & _ & _ & _ & _ & _ & _ & Hset4).
  destruct (dtor_spec page dlg _ _ w3 Hready3) as (w5 & Hdtor5 & _ & _ & _ & _ & _ & _ & Hset5).
  exists dlg, w1, w2, obj, w3, w4, w5.
  split_and!; try done.
  - rewrite Himpls. cbn [impl dlg]. by rewrite lookup_insert_eq.
  - congruence.
  - cbn. by rewrite Hset2, Hset.
  - cbn. apply lookup_insert_eq.
  - congruence.
Qed.

End param_dlg_properties.

(** * Concrete instances *)

(** Closed arithmetic facts are settled by evaluation. *)
Ltac concrete :=
  vm_compute; repeat split; first [reflexivity | discriminate | intro; discriminate].

Lemma blit_tile_spec_witness :
  bitmap_ok (m_bitmap example_callback) /\
  frame_matches_bitmap (renderer := example_renderer) example_frame (m_bitmap example_callback) /\
  tile_in_canvas (renderer := example_renderer) example_frame 1 0 /\
  bm_pixels (m_bitmap (blit_tile (renderer := example_renderer) example_frame 1 0 example_callback))
    !! (2, 1) = Some (mkBMM_Color_fl 110 110 110 float_one) /\
  bm_pixels (m_bitmap (blit_tile (renderer := example_renderer) example_frame 1 0 example_callback))
    !! (1, 1) = None.
Proof.
  assert (Hok : bitmap_ok (m_bitmap example_callback)) by concrete.
  assert (Hmatch : frame_matches_bitmap (renderer := example_renderer) example_frame
                     (m_bitmap example_callback)) by concrete.
  assert (Htile : tile_in_canvas (renderer := example_renderer) example_frame 1 0) by concrete.
  destruct (blit_tile_spec (renderer := example_renderer) example_frame 1 0 example_callback
              Hok Hmatch Htile) as (_ & _ & _ & _ & Hin & Hout).
  split_and!; [done..| |].
  - exact (Hin 0 1 ltac:(concrete) ltac:(concrete)).
  - rewrite (Hout 1 1) by (vm_compute; intros [[Ha _] _]; by apply Ha). reflexivity.
Defined.

Lemma post_render_tile_spec_witness :
  bitmap_ok (m_bitmap example_callback) /\
  frame_matches_bitmap (renderer := example_renderer) example_frame (m_bitmap example_callback) /\
  tile_in_canvas (renderer := example_renderer) example_frame 1 0 /\
  last (bm_calls (m_bitmap (post_render_tile (renderer := example_renderer) example_frame 1 0
                              example_callback)))
    = Some (CallRefreshWindow (Some (mkRECT 2 0 3 2))) /\
  rect_right (make_rect 2 0 1 2) - rect_left (make_rect 2 0 1 2) = 1.
Proof.
  assert (Hok : bitmap_ok (m_bitmap example_callback)) by concrete.
  assert (Hmatch : frame_matches_bitmap (renderer := example_renderer) example_frame
                     (m_bitmap example_callback)) by concrete.
  assert (Htile : tile_in_canvas (renderer := example_renderer) example_frame 1 0) by concrete.
  destruct (post_render_tile_spec (renderer := example_renderer) example_frame 1 0
              example_callback Hok Hmatch Htile) as (_ & Hcalls & Hrect).
  split_and!; [done..| |].
  - rewrite Hcalls, !app_assoc. apply last_snoc.
  - apply (Hrect 2 0 1 2); concrete.
Defined.

(** C3, the claim as stated fails: for a width of [2^32] the rectangle that
    [make_rect] returns has [right = left]. *)
Lemma make_rect_counterexample :
  make_rect 0 0 (2 ^ 32) 1 = mkRECT 0 0 0 1 /\
  rect_right (make_rect 0 0 (2 ^ 32) 1) - rect_left (make_rect 0 0 (2 ^ 32) 1) <> 2 ^ 32.
Proof. split; [reflexivity|]. vm_compute. discriminate. Qed.

Lemma rendered_tile_count_spec_witness :
  is_uint32 (m_rendered_tile_count example_callback) /\
  m_rendered_tile_count
    (post_render_tiles (renderer := example_renderer)
       [(example_frame, 0, 0); (example_frame, 1, 0)] example_callback) = 2.
Proof.
  assert (Hc : is_uint32 (m_rendered_tile_count example_callback)) by concrete.
  split; [done|].
  destruct (rendered_tile_count_spec (renderer := example_renderer) example_callback
              example_frame 0 0 0 0 1 1
              [(example_frame, 0, 0); (example_frame, 1, 0)] Hc)
    as (_ & _ & _ & _ & _ & _ & Hn).
  apply Hn. concrete.
Defined.

(** C4, the claim as stated fails: from [2^32 - 1] one call of
    [post_render_tile] takes the counter to [0]. *)
Lemma rendered_tile_count_counterexample :
  m_rendered_tile_count
    (post_render_tile (renderer := example_renderer) example_frame 0 0
       (mkTileCallback example_bitmap (2 ^ 32 - 1) None)) = 0 /\
  m_rendered_tile_count
    (post_render_tile (renderer := example_renderer) example_frame 0 0
       (mkTileCallback example_bitmap (2 ^ 32 - 1) None)) <> (2 ^ 32 - 1) + 1.
Proof. split; [reflexivity|]. vm_compute. discriminate. Qed.

Lemma pre_render_spec_witness :
  1 <= 2 /\ 0 <= 1 /\ 1 + 2 < 2 ^ 31 /\ 0 + 2 < 2 ^ 31 /\
  bm_calls (m_bitmap (pre_render 1 0 2 2 example_callback)) =
    (write_call <$> bracket_writes 1 0 2 2 5 white) ++
    [CallRefreshWindow (Some (mkRECT 1 0 3 2))] /\
  on_bracket 1 0 2 2 5 (2, 1).
Proof.
  destruct (pre_render_spec example_callback 1 0 2 2
              ltac:(concrete) ltac:(concrete) ltac:(concrete) ltac:(concrete)
              ltac:(concrete) ltac:(concrete)) as (_ & Hcalls & Hon).
  split_and!; [concrete..| |]; [exact Hcalls|].
  assert (Hmem : ((2, 1), white) ∈ bracket_writes 1 0 2 2 5 white).
  { vm_compute. repeat first [apply list_elem_of_here | apply list_elem_of_further]. }
  exact (proj1 (proj1 (Hon (2, 1) white) Hmem)).
Defined.

(** C5, the claim as stated fails: for [x = 2^32] the bracket is drawn at
    column [0] and the rectangle [(0, 0, 1, 1)] is refreshed; the corner
    [(x, y)] receives no write and the rectangle of the tile is not the one
    refreshed. *)
Lemma pre_render_counterexample :
  bm_calls (m_bitmap (pre_render (2 ^ 32) 0 1 1 example_callback)) =
    replicate 8 (CallPutPixels 0 0 white) ++ [CallRefreshWindow (Some (mkRECT 0 0 1 1))] /\
  bm_calls (m_bitmap (pre_render (2 ^ 32) 0 1 1 example_callback)) <>
    (write_call <$> bracket_writes (2 ^ 32) 0 1 1 5 white) ++
    [CallRefreshWindow (Some (mkRECT (2 ^ 32) 0 (2 ^ 32 + 1) 1))].
Proof. split; [reflexivity|]. vm_compute. discriminate. Qed.

Lemma draw_line_spec_witness :
  is_int 3 /\ is_int 1 /\ is_int (-3) /\
  bm_calls (draw_hline example_bitmap 3 1 (-3) white) =
    [CallPutPixels 3 1 white; CallPutPixels 2 1 white; CallPutPixels 1 1 white] /\
  bm_calls (draw_vline example_bitmap 3 1 (-3) white) =
    [CallPutPixels 3 1 white; CallPutPixels 3 0 white; CallPutPixels 3 (-1) white].
Proof.
  assert (H3 : is_int 3) by concrete.
  assert (H1 : is_int 1) by concrete.
  assert (Hl : is_int (-3)) by concrete.
  destruct (draw_line_spec example_bitmap 3 1 (-3) white H3 H1 Hl)
    as ((_ & Hh & _) & (_ & Hv & _) & _).
  split_and!; [done..| |].
  - rewrite Hh. reflexivity.
  - rewrite Hv. reflexivity.
Defined.

Lemma on_command_spec_witness :
  m_text_pixelsamples (example_impl 16) = Some example_edit /\
  on_command (resources := example_resources) (mkHost ∅ ∅ ∅ {[ example_edit := 64 ]} ∅)
             (example_impl 16) 1001 0 = Some (example_impl 64, TRUE) /\
  on_command (resources := example_resources) (mkHost ∅ ∅ ∅ {[ example_edit := 64 ]} ∅)
             (example_impl 16) 1002 0 = Some (example_impl 16, FALSE).
Proof.
  assert (Hedit : m_text_pixelsamples (example_impl 16) = Some example_edit) by reflexivity.
  split; [done|].
  split.
  - destruct (on_command_spec (resources := example_resources)
                (mkHost ∅ ∅ ∅ {[ example_edit := 64 ]} ∅) (example_impl 16) 1001 0
                example_edit Hedit) as (_ & Hcmd & _).
    destruct (Hcmd ltac:(reflexivity)) as (-> & _). reflexivity.
  - destruct (on_command_spec (resources := example_resources)
                (mkHost ∅ ∅ ∅ {[ example_edit := 64 ]} ∅) (example_impl 16) 1002 0
                example_edit Hedit) as (_ & _ & Hother).
    apply Hother. vm_compute. discriminate.
Defined.

(** C6, the claim as stated fails: the edit box shows [-1] and
    [m_pixel_samples] becomes [2^64 - 1]. *)
Lemma on_command_counterexample :
  GetInt example_edit example_host_negative = -1 /\
  on_command (resources := example_resources) example_host_negative (example_impl 16) 1001 0 =
    Some (example_impl 18446744073709551615, TRUE) /\
  m_pixel_samples (m_settings (example_impl 18446744073709551615))
    <> GetInt example_edit example_host_negative.
Proof. split_and!; [reflexivity..|]. vm_compute. discriminate. Qed.

Lemma create_controls_spec_witness :
  spinners ((create_controls (resources := example_resources) 1%positive (example_impl 64)
               example_host).2) !! GetDlgItem 1%positive 1002 =
    Some (mkSpinner (Some (example_edit, EDITTYPE_INT)) (Some (1, 1000000))
                    (Some 16) (Some 64)).
Proof.
  destruct (create_controls_spec (resources := example_resources) 1%positive (example_impl 64)
              example_host) as (Hsp & _).
  etrans; [exact Hsp|reflexivity].
Defined.

(** C9, the claim as stated fails: with [m_pixel_samples = 2^64 - 1], which
    is what [on_command] stores when the edit box shows [-1], the spinner is
    given the value [-1]. *)
Lemma create_controls_counterexample :
  m_pixel_samples (m_settings (example_impl (2 ^ 64 - 1))) = 18446744073709551615 /\
  spin_value <$>
    spinners ((create_controls (resources := example_resources) 1%positive
                 (example_impl (2 ^ 64 - 1)) example_host).2) !! GetDlgItem 1%positive 1002 =
    Some (Some (-1)).
Proof. split; reflexivity. Qed.

Lemma rollup_page_lifecycle_witness :
  settings_objects example_world !! 1%positive = Some (mkRendererSettings 16) /\
  exists dlg w1 w3,
    AppleseedRendererParamDlg_ctor (resources := example_resources) false 1%positive example_world
      = Some (dlg, w1) /\
    (page_title <$> rollup_pages (host w1) !! 1%positive) = Some "Sampling" /\
    AppleseedRendererParamDlg_dtor (resources := example_resources) dlg w1 = Some w3 /\
    rollup_pages (host w3) = rollup_pages (host example_world).
Proof.
  assert (Hs : settings_objects example_world !! 1%positive = Some (mkRendererSettings 16))
    by reflexivity.
  split; [done|].
  destruct (rollup_page_lifecycle (resources := example_resources) false 1%positive
              (mkRendererSettings 16) [] example_world Hs)
    as (dlg & w1 & w2 & w3 & Hctor & _ & Hpages & _ & _ & Hcmds & _ & Hdtor & _ & _ & _ & Hsame & _).
  injection Hcmds as <-.
  exists dlg, w1, w3. split_and!; [done| |done..].
  rewrite Hpages. reflexivity.
Defined.

Lemma caller_settings_spec_witness :
  settings_objects example_world !! 1%positive = Some (mkRendererSettings 16) /\
  exists dlg w1 w2 w4,
    AppleseedRendererParamDlg_ctor (resources := example_resources) false 1%positive example_world
      = Some (dlg, w1) /\
    send_commands (resources := example_resources) 1%positive [(1001, 0)] w1 = Some w2 /\
    settings_objects w2 !! 1%positive = Some (mkRendererSettings 16) /\
    AppleseedRendererParamDlg_dtor (resources := example_resources) dlg w2 = Some w4 /\
    settings_objects w4 !! 1%positive = Some (mkRendererSettings 16).
Proof.
  assert (Hs : settings_objects example_world !! 1%positive = Some (mkRendererSettings 16))
    by reflexivity.
  split; [done|].
  destruct (caller_settings_spec (resources := example_resources) false 1%positive
              (mkRendererSettings 16) [(1001, 0)] example_world Hs)
    as (dlg & w1 & w2 & obj & w3 & w4 & w5 & Hctor & _ & _ & _ & Hcmds & Hset2 & _ & _
        & _ & _ & _ & Hdtor & Hset4 & _).
  exists dlg, w1, w2, w4. split_and!; [done|exact Hcmds| |done|].
  - rewrite Hset2. reflexivity.
  - rewrite Hset4. reflexivity.
Defined.

(** * Further properties of the tile callback *)

Section tile_callback_further.

Context {renderer : Renderer}.

(** ** Invariants of the loops *)

Lemma run_invariant {St : Type} (P : St -> Prop) (body : Z -> St -> St)
    (l : list Z) (st : St) :
  (forall i st, P st -> P (body i st)) -> P st -> P (run body l st).
Proof.
  intros Hbody. revert st. induction l as [|i l IH]; intros st Hst; [done|].
  apply IH, Hbody, Hst.
Qed.

Lemma line_loop_invariant {St : Type} (P : St -> Prop) (body : Z -> St -> St)
    (stop length i : Z) (st : St) :
  (forall i st, P st -> P (body i st)) -> P st ->
  P (line_loop body stop length i st).
Proof.
  intros Hbody.
  remember (steps_left stop length i) as n eqn:Hn.
  revert i st Hn. induction n as [n IH] using lt_wf_ind. intros i st Hn Hst.
  rewrite line_loop_step. destruct (decide (i = to_int stop)) as [|Hne]; [done|].
  eapply IH; [|reflexivity|by apply Hbody].
  subst n. by apply steps_left_decreases.
Qed.

Lemma count_loop_invariant {St : Type} (P : St -> Prop) (body : Z -> St -> St)
    (n i : Z) (st : St) :
  (forall i st, P st -> P (body i st)) -> P st -> P (count_loop body n i st).
Proof. intros. rewrite count_loop_run. by apply run_invariant. Qed.

Lemma PutPixels_same_frame (b0 : Bitmap) (x y : Z) (pixel : BMM_Color_fl) (b : Bitmap) :
  same_frame b0 b -> same_frame b0 (PutPixels x y pixel b).
Proof.
  intros (HW & HH & Hr). unfold same_frame, PutPixels, refreshes in *. cbn.
  rewrite omap_app. cbn. by rewrite app_nil_r.
Qed.

Lemma draw_hline_same_frame (b0 b : Bitmap) (x y length : Z) (pixel : BMM_Color_fl) :
  same_frame b0 b -> same_frame b0 (draw_hline b x y length pixel).
Proof.
  intros. unfold draw_hline. apply line_loop_invariant; [|done].
  intros. by apply PutPixels_same_frame.
Qed.

Lemma draw_vline_same_frame (b0 b : Bitmap) (x y length : Z) (pixel : BMM_Color_fl) :
  same_frame b0 b -> same_frame b0 (draw_vline b x y length pixel).
Proof.
  intros. unfold draw_vline. apply line_loop_invariant; [|done].
  intros. by apply PutPixels_same_frame.
Qed.

Lemma draw_bracket_same_frame (b : Bitmap) (x y width height extent : Z)
    (pixel : BMM_Color_fl) :
  same_frame b (draw_bracket b x y width height extent pixel).
Proof.
  unfold draw_bracket. cbv zeta.
  repeat first [apply draw_hline_same_frame | apply draw_vline_same_frame].
  done.
Qed.

Lemma put_all_same_frame (b0 : Bitmap) (ws : list Write) (b : Bitmap) :
  same_frame b0 b -> same_frame b0 (put_all ws b).
Proof.
  revert b. induction ws as [|w ws IH]; intros b Hb; [done|].
  rewrite put_all_cons. apply IH. by apply PutPixels_same_frame.
Qed.

(** ** blit_tile for every frame *)

Lemma blit_tile_put_all (frame : Frame) (tile_x tile_y : Z) (cb : TileCallback) :
  m_bitmap (blit_tile frame tile_x tile_y cb) =
  put_all (blit_writes frame tile_x tile_y) (m_bitmap cb).
Proof.
  unfold blit_tile, blit_writes. cbn.
  rewrite count_loop_run, Z.sub_0_r. rewrite <- run_put_all_bind.
  apply run_ext. intros y bitmap _.
  rewrite count_loop_run, Z.sub_0_r.
  by rewrite <- (run_put_all (fun x => (_, _, output_pixel frame _ x y))).
Qed.

Lemma length_rows {A : Type} (row : Z -> list A) (ys : list Z) (n : nat) :
  (forall y, length (row y) = n) -> length (ys ≫= row) = (length ys * n)%nat.
Proof.
  intros Hrow. induction ys as [|y ys IH]; [done|].
  rewrite bind_cons, length_app, Hrow, IH. cbn. lia.
Qed.

(** For every frame and tile index, also outside the assertions of its
    callers, [blit_tile] issues exactly [width * height] single-pixel writes,
    [width] and [height] being the dimensions of the source tile, and nothing
    else; for a tile without pixels it leaves the bitmap as it is. *)
Theorem blit_tile_write_count (frame : Frame) (tile_x tile_y : Z) (cb : TileCallback) :
  let t := tile (image frame) tile_x tile_y in
  let writes := blit_writes frame tile_x tile_y in
  bm_calls (m_bitmap (blit_tile frame tile_x tile_y cb)) =
    bm_calls (m_bitmap cb) ++ (write_call <$> writes) /\
  length writes = (Z.to_nat (get_width t) * Z.to_nat (get_height t))%nat /\
  (get_width t <= 0 \/ get_height t <= 0 ->
   m_bitmap (blit_tile frame tile_x tile_y cb) = m_bitmap cb).
Proof.
  intros t writes. split_and!.
  - by rewrite blit_tile_put_all, put_all_calls.
  - unfold writes, blit_writes. fold t.
    rewrite (length_rows _ _ (Z.to_nat (get_width t))).
    + rewrite length_seqZ. lia.
    + intros y. by rewrite length_fmap, length_seqZ.
  - intros Hempty. rewrite blit_tile_put_all. unfold blit_writes. fold t.
    destruct Hempty as [Hw|Hh].
    + rewrite (seqZ_nil 0 (get_width t)) by done.
      replace (seqZ 0 (get_height t) ≫= _) with (@nil Write); [done|].
      induction (seqZ 0 (get_height t)) as [|y ys IH]; [done|].
      by rewrite bind_cons, <- IH.
    + by rewrite (seqZ_nil 0 (get_height t)) by done.
Qed.

(** ** Refreshes *)

Lemma blit_tile_same_frame (frame : Frame) (tile_x tile_y : Z) (cb : TileCallback) :
  same_frame (m_bitmap cb) (m_bitmap (blit_tile frame tile_x tile_y cb)).
Proof. rewrite blit_tile_put_all. by apply put_all_same_frame. Qed.

Lemma same_frame_trans (b1 b2 b3 : Bitmap) :
  same_frame b1 b2 -> same_frame b2 b3 -> same_frame b1 b3.
Proof. intros (? & ? & ?) (? & ? & ?). unfold same_frame. split_and!; congruence. Qed.

Lemma blit_tiles_same_frame (frame : Frame) (tiles : list (Z * Z)) (cb : TileCallback) :
  same_frame (m_bitmap cb) (m_bitmap (blit_tiles frame tiles cb)).
Proof.
  revert cb. induction tiles as [|xy tiles IH]; intros cb; [done|].
  change (blit_tiles frame (xy :: tiles) cb)
    with (blit_tiles frame tiles (blit_tile frame (xy.1) (xy.2) cb)).
  eapply same_frame_trans; [apply blit_tile_same_frame|apply IH].
Qed.

Lemma refreshes_RefreshWindow (rect : option RECT) (b0 b : Bitmap) :
  same_frame b0 b ->
  refreshes (bm_calls (RefreshWindow rect b)) = refreshes (bm_calls b0) ++ [rect] /\
  last (bm_calls (RefreshWindow rect b)) = Some (CallRefreshWindow rect) /\
  Width (RefreshWindow rect b) = Width b0 /\ Height (RefreshWindow rect b) = Height b0.
Proof.
  intros (HW & HH & Hr). unfold RefreshWindow, refreshes in *. cbn.
  rewrite omap_app, Hr, last_snoc. done.
Qed.

(** For all arguments, every notification refreshes the display window
    exactly once, as the last call it makes on the bitmap: [pre_render] and
    [post_render_tile] the rectangle that [make_rect] returns for their
    tile, [post_render] the whole window.  [blit_tile] never refreshes. *)
Theorem callbacks_refresh_once (frame : Frame) (tile_x tile_y x y width height : Z)
    (cb : TileCallback) :
  let props := properties (image frame) in
  let t := tile (image frame) tile_x tile_y in
  let before := refreshes (bm_calls (m_bitmap cb)) in
  let tile_rect :=
    make_rect (to_size_t (tile_x * m_tile_width props))
              (to_size_t (tile_y * m_tile_height props)) (get_width t) (get_height t) in
  refreshes (bm_calls (m_bitmap (blit_tile frame tile_x tile_y cb))) = before /\
  (refreshes (bm_calls (m_bitmap (pre_render x y width height cb))) =
     before ++ [Some (make_rect x y width height)] /\
   last (bm_calls (m_bitmap (pre_render x y width height cb))) =
     Some (CallRefreshWindow (Some (make_rect x y width height)))) /\
  (refreshes (bm_calls (m_bitmap (post_render_tile frame tile_x tile_y cb))) =
     before ++ [Some tile_rect] /\
   last (bm_calls (m_bitmap (post_render_tile frame tile_x tile_y cb))) =
     Some (CallRefreshWindow (Some tile_rect))) /\
  (refreshes (bm_calls (m_bitmap (post_render frame cb))) = before ++ [None] /\
   last (bm_calls (m_bitmap (post_render frame cb))) = Some (CallRefreshWindow None)).
Proof.
  intros props t before tile_rect. split_and!.
  - apply blit_tile_same_frame.
  - apply (refreshes_RefreshWindow _ (m_bitmap cb)), draw_bracket_same_frame.
  - apply (refreshes_RefreshWindow _ (m_bitmap cb)), draw_bracket_same_frame.
  - apply (refreshes_RefreshWindow _ (m_bitmap cb)), blit_tile_same_frame.
  - apply (refreshes_RefreshWindow _ (m_bitmap cb)), blit_tile_same_frame.
  - unfold post_render. rewrite blit_all_tiles.
    apply (refreshes_RefreshWindow _ (m_bitmap cb)), blit_tiles_same_frame.
  - unfold post_render. rewrite blit_all_tiles.
    apply (refreshes_RefreshWindow _ (m_bitmap cb)), blit_tiles_same_frame.
Qed.

(** ** Sequences of notifications *)

Lemma notify_all_cons (n : Notification) (ns : list Notification) (cb : TileCallback) :
  notify_all (n :: ns) cb = notify_all ns (notify n cb).
Proof. reflexivity. Qed.

Lemma notify_same_size (n : Notification) (cb : TileCallback) :
  Width (m_bitmap (notify n cb)) = Width (m_bitmap cb) /\
  Height (m_bitmap (notify n cb)) = Height (m_bitmap cb).
Proof.
  destruct n as [x y width height|frame tile_x tile_y|frame]; cbn [notify].
  - destruct (refreshes_RefreshWindow (Some (make_rect x y width height)) (m_bitmap cb)
                (draw_bracket (m_bitmap cb) (to_int x) (to_int y) (to_int width)
                   (to_int height) 5
                   (mkBMM_Color_fl float_one float_one float_one float_one))
                (draw_bracket_same_frame _ _ _ _ _ _ _)) as (_ & _ & HW & HH).
    done.
  - destruct (blit_tile_same_frame frame tile_x tile_y cb) as (HW & HH & _). done.
  - unfold post_render. rewrite blit_all_tiles.
    destruct (blit_tiles_same_frame frame (all_tiles (properties (image frame))) cb)
      as (HW & HH & _). done.
Qed.

(** No notification ever changes the dimensions of the bitmap.  Hence the
    assertions of [post_render_tile] and [post_render], once true for a
    frame, stay true through any sequence of notifications, whatever their
    arguments. *)
Theorem notifications_keep_assertions (ns : list Notification) (cb : TileCallback)
    (frame : Frame) :
  Width (m_bitmap (notify_all ns cb)) = Width (m_bitmap cb) /\
  Height (m_bitmap (notify_all ns cb)) = Height (m_bitmap cb) /\
  (bitmap_ok (m_bitmap cb) -> bitmap_ok (m_bitmap (notify_all ns cb))) /\
  (frame_matches_bitmap frame (m_bitmap cb) ->
   frame_matches_bitmap frame (m_bitmap (notify_all ns cb))).
Proof.
  assert (Hsize : Width (m_bitmap (notify_all ns cb)) = Width (m_bitmap cb) /\
                  Height (m_bitmap (notify_all ns cb)) = Height (m_bitmap cb)).
  { revert cb. induction ns as [|n ns IH]; intros cb; [done|].
    rewrite notify_all_cons.
    destruct (IH (notify n cb)) as [-> ->]. apply notify_same_size. }
  destruct Hsize as [HW HH].
  unfold bitmap_ok, frame_matches_bitmap. rewrite HW, HH. done.
Qed.

Lemma notify_storage (n : Notification) (cb : TileCallback) (s : TileStorage) :
  m_float_tile_storage cb = Some s -> m_float_tile_storage (notify n cb) = Some s.
Proof.
  intros Hs. destruct n as [x y width height|frame tile_x tile_y|frame]; cbn.
  - done.
  - by rewrite Hs.
  - rewrite blit_all_tiles.
    generalize (all_tiles (properties (image frame))). intros tiles.
    revert cb Hs. induction tiles as [|xy tiles IH]; intros cb Hs; [done|].
    change (blit_tiles frame (xy :: tiles) cb)
      with (blit_tiles frame tiles (blit_tile frame (xy.1) (xy.2) cb)).
    apply IH. cbn. by rewrite Hs.
Qed.

(** The scratch tile is allocated once.  A callback is constructed without
    it; [pre_render] does not allocate it; the first [blit_tile] allocates it
    for a full floating-point tile of the frame it is given; once allocated
    it is never replaced, whatever notifications follow and whatever the
    tile size of the frames they carry. *)
Theorem scratch_tile_allocated_once (bitmap : Bitmap) (count : Z) (frame : Frame)
    (tile_x tile_y x y width height : Z) (ns : list Notification)
    (cb : TileCallback) (s : TileStorage) :
  m_float_tile_storage (TileCallback_ctor bitmap count) = None /\
  m_float_tile_storage (pre_render x y width height cb) = m_float_tile_storage cb /\
  (m_float_tile_storage cb = None ->
   m_float_tile_storage (blit_tile frame tile_x tile_y cb) = Some (frame_storage frame)) /\
  (m_float_tile_storage cb = Some s ->
   m_float_tile_storage (blit_tile frame tile_x tile_y cb) = Some s /\
   m_float_tile_storage (notify_all ns cb) = Some s).
Proof.
  split_and!; [done|done| |].
  - intros Hs. cbn. by rewrite Hs.
  - intros Hs. split; [cbn; by rewrite Hs|].
    revert cb Hs. induction ns as [|n ns IH]; intros cb Hs; [done|].
    rewrite notify_all_cons. by apply IH, notify_storage.
Qed.

Lemma notify_count (n : Notification) (cb : TileCallback) :
  m_rendered_tile_count (notify n cb) =
  if is_post_render_tile n then to_uint32 (m_rendered_tile_count cb + 1)
  else m_rendered_tile_count cb.
Proof.
  destruct n as [x y width height|frame tile_x tile_y|frame]; cbn; [done..|].
  rewrite blit_all_tiles. apply blit_tiles_count.
Qed.

(** In any sequence of notifications the counter advances by the number of
    [post_render_tile] calls in it, modulo [2^32]: the other notifications
    may be interleaved freely without affecting the count. *)
Theorem counter_counts_rendered_tiles (ns : list Notification) (cb : TileCallback) :
  is_uint32 (m_rendered_tile_count cb) ->
  m_rendered_tile_count (notify_all ns cb) =
  (m_rendered_tile_count cb + Z.of_nat (length (filter is_post_render_tile ns)))
    mod 2 ^ 32.
Proof.
  revert cb. induction ns as [|n ns IH]; intros cb Hc.
  - cbn. rewrite Z.add_0_r. symmetry. by apply Z.mod_small.
  - rewrite notify_all_cons, IH, notify_count.
    + rewrite filter_cons. destruct (is_post_render_tile n); cbn [Is_true].
      * rewrite decide_True by done. rewrite length_cons. int_arith.
      * rewrite decide_False by tauto. done.
    + rewrite notify_count. destruct (is_post_render_tile n); [|done].
      unfold is_uint32, to_uint32. apply Z.mod_pos_bound. done.
Qed.

(** ** The pixels after pre_render *)

(** When every write to a pixel carries the same colour, the pixel holds
    that colour, however often it is written. *)
Lemma put_all_uniform (ws : list Write) (bitmap : Bitmap) (p : Z * Z) (c : BMM_Color_fl) :
  (forall w, w ∈ ws -> w.1 = p -> w.2 = c) ->
  (exists w, w ∈ ws /\ w.1 = p) ->
  inside bitmap (p.1) (p.2) ->
  bm_pixels (put_all ws bitmap) !! p = Some c.
Proof.
  induction ws as [|w ws IH] using rev_ind; intros Hall (w0 & Hin & Hp) Hins.
  { by apply elem_of_nil in Hin. }
  rewrite put_all_app.
  destruct (put_all_Width ws bitmap) as [HW HH].
  destruct w as [[x y] c'].
  change (put_all [(x, y, c')] (put_all ws bitmap))
    with (PutPixels x y c' (put_all ws bitmap)).
  unfold PutPixels. cbn [bm_pixels].
  destruct (decide ((x, y) = p)) as [<-|Hw].
  - cbn in Hins.
    rewrite decide_True by (unfold inside in *; rewrite HW, HH; done).
    rewrite lookup_insert_eq. f_equal.
    apply (Hall (x, y, c')); [|done]. apply elem_of_app. right. apply list_elem_of_here.
  - assert (Hrest : bm_pixels (put_all ws bitmap) !! p = Some c).
    { apply IH; [| |done].
      - intros w' Hw'. apply Hall. apply elem_of_app. by left.
      - exists w0. split; [|done].
        apply elem_of_app in Hin as [|Hin]; [done|].
        apply list_elem_of_singleton in Hin. subst w0. done. }
    case_decide; [|done]. by rewrite lookup_insert_ne.
Qed.

Lemma on_bracket_on_outline (x y width height extent : Z) (p : Z * Z) :
  1 <= width -> 1 <= height -> 0 <= extent ->
  on_bracket x y width height extent p -> on_outline x y width height p.
Proof. unfold on_bracket, on_outline, in_rect. lia. Qed.

Lemma pre_render_bitmap (cb : TileCallback) (x y width height : Z) :
  1 <= width -> 1 <= height -> 0 <= x -> 0 <= y ->
  x + width < 2 ^ 31 -> y + height < 2 ^ 31 ->
  m_bitmap (pre_render x y width height cb) =
  RefreshWindow (Some (mkRECT x y (x + width) (y + height)))
                (put_all (bracket_writes x y width height 5 white) (m_bitmap cb)).
Proof.
  intros. unfold pre_render. cbn.
  rewrite make_rect_exact by lia.
  rewrite !to_int_id by (unfold_ints; lia).
  by rewrite draw_bracket_exact by lia.
Qed.

(** The bracket stays on the outline of its tile.  For a tile rectangle in
    the [int] range, after [pre_render] every pixel of the bracket that lies
    in the bitmap is white, every other pixel of the bitmap is unchanged, and
    the bracket consists of pixels of the outline of the rectangle only: no
    pixel outside the tile, and none in its interior, is touched. *)
Theorem pre_render_pixels (cb : TileCallback) (x y width height : Z) :
  1 <= width -> 1 <= height -> 0 <= x -> 0 <= y ->
  x + width < 2 ^ 31 -> y + height < 2 ^ 31 ->
  let after := bm_pixels (m_bitmap (pre_render x y width height cb)) in
  (forall p, on_bracket x y width height 5 p -> inside (m_bitmap cb) (p.1) (p.2) ->
             after !! p = Some white) /\
  (forall p, ~ on_bracket x y width height 5 p -> after !! p = bm_pixels (m_bitmap cb) !! p) /\
  (forall p, on_bracket x y width height 5 p -> on_outline x y width height p).
Proof.
  intros Hw Hh Hx Hy Hxw Hyh after. unfold after.
  rewrite pre_render_bitmap by done. cbn [RefreshWindow bm_pixels].
  split_and!.
  - intros p Hp Hins. apply put_all_uniform; [| |done].
    + intros [q c] Hin _. apply bracket_writes_on_bracket in Hin; [|lia..].
      by destruct Hin as [_ ->].
    + exists (p, white). split; [|done].
      apply bracket_writes_on_bracket; [lia..|done].
  - intros p Hp. apply put_all_other.
    intros ([q c] & Hq & Hin)%list_elem_of_fmap. cbn in Hq. subst q.
    apply bracket_writes_on_bracket in Hin; [|lia..]. by destruct Hin.
  - intros p. apply on_bracket_on_outline; lia.
Qed.

Lemma length_line_counters (start length : Z) :
  Z.of_nat (List.length (line_counters start length)) = Z.abs length.
Proof. unfold line_counters. rewrite length_fmap, length_seqZ. lia. Qed.

(** The same as [draw_bracket_exact], for rectangles that may be empty. *)
Lemma draw_bracket_exact_0 (bitmap : Bitmap) (x y width height extent : Z)
    (pixel : BMM_Color_fl) :
  0 <= x -> 0 <= y -> 0 <= width -> 0 <= height -> 0 <= extent < 2 ^ 31 ->
  x + width < 2 ^ 31 -> y + height < 2 ^ 31 ->
  draw_bracket bitmap x y width height extent pixel =
  put_all (bracket_writes x y width height extent pixel) bitmap.
Proof.
  intros Hx Hy Hw Hh He Hxw Hyh.
  unfold draw_bracket, bracket_writes, int_add, int_sub, int_neg.
  change (2 ^ 31) with 2147483648 in *.
  assert (Hint : forall z, - 2147483648 <= z < 2147483648 -> to_int z = z).
  { intros z Hz. apply to_int_id. unfold is_int. change (2 ^ 31) with 2147483648. lia. }
  rewrite !(Hint (Z.min _ _)) by lia.
  rewrite !(Hint (x + width)), !(Hint (y + height)) by lia.
  rewrite !(Hint (x + width - 1)), !(Hint (y + height - 1)) by lia.
  rewrite !(Hint (- Z.min _ _)) by lia.
  rewrite !put_all_app.
  rewrite !draw_hline_exact, !draw_vline_exact
    by (unfold is_int; change (2 ^ 31) with 2147483648; lia).
  reflexivity.
Qed.

(** The cost of the bracket does not grow with the tile.  For a rectangle in
    the [int] range, possibly empty, [pre_render] issues
    [4 * min 5 width + 4 * min 5 height] single-pixel writes, at most 40, and
    then its one refresh; for a rectangle of width and height zero it issues
    the refresh only. *)
Theorem pre_render_cost (cb : TileCallback) (x y width height : Z) :
  0 <= x -> 0 <= y -> 0 <= width -> 0 <= height ->
  x + width < 2 ^ 31 -> y + height < 2 ^ 31 ->
  exists writes,
    bm_calls (m_bitmap (pre_render x y width height cb)) =
      bm_calls (m_bitmap cb) ++ (write_call <$> writes) ++
      [CallRefreshWindow (Some (mkRECT x y (x + width) (y + height)))] /\
    Z.of_nat (length writes) = 4 * Z.min 5 width + 4 * Z.min 5 height /\
    Z.of_nat (length writes) <= 40 /\
    (width = 0 -> height = 0 -> writes = []).
Proof.
  intros Hx Hy Hw Hh Hxw Hyh.
  exists (bracket_writes x y width height 5 white).
  assert (Hlen : Z.of_nat (length (bracket_writes x y width height 5 white)) =
                 4 * Z.min 5 width + 4 * Z.min 5 height).
  { unfold bracket_writes, hline_writes, vline_writes.
    rewrite !length_app, !length_fmap, !Nat2Z.inj_add, !length_line_counters. lia. }
  split_and!.
  - unfold pre_render. cbn.
    rewrite make_rect_exact by lia.
    rewrite !to_int_id by (unfold_ints; lia).
    rewrite draw_bracket_exact_0 by lia.
    rewrite put_all_calls. by rewrite <- app_assoc.
  - done.
  - lia.
  - intros -> ->. reflexivity.
Qed.

(** ** The pixels after a blit *)

Lemma blit_tile_pixel_in (frame : Frame) (tile_x tile_y : Z) (cb : TileCallback)
    (x y : Z) :
  bitmap_ok (m_bitmap cb) ->
  frame_matches_bitmap frame (m_bitmap cb) ->
  tile_in_canvas frame tile_x tile_y ->
  let props := properties (image frame) in
  let t := tile (image frame) tile_x tile_y in
  0 <= x < get_width t -> 0 <= y < get_height t ->
  bm_pixels (m_bitmap (blit_tile frame tile_x tile_y cb))
    !! (tile_x * m_tile_width props + x, tile_y * m_tile_height props + y) =
  Some (output_pixel frame t x y).
Proof.
  intros Hok Hmatch Htile props t Hx Hy.
  rewrite blit_tile_bitmap by done.
  apply put_all_written.
  - apply NoDup_rect_writes.
  - apply elem_of_rect_writes. by exists x, y.
  - destruct Hok as [HW HH]. destruct Hmatch as (Hcw & Hch & _).
    destruct Htile as (Htx & Hty & Htw & Hth & Hw & Hh & Hxw & Hyh).
    rewrite to_size_t_id in Hcw, Hch by (unfold_ints; lia).
    fold props in Hcw, Hch, Htw, Hth, Hxw, Hyh. fold t in Hxw, Hyh.
    assert (0 <= tile_x * m_tile_width props) by (apply Z.mul_nonneg_nonneg; lia).
    assert (0 <= tile_y * m_tile_height props) by (apply Z.mul_nonneg_nonneg; lia).
    unfold inside. lia.
Qed.

Lemma blit_tile_pixel_out (frame : Frame) (tile_x tile_y : Z) (cb : TileCallback)
    (p : Z * Z) :
  bitmap_ok (m_bitmap cb) ->
  frame_matches_bitmap frame (m_bitmap cb) ->
  tile_in_canvas frame tile_x tile_y ->
  ~ in_tile frame tile_x tile_y p ->
  bm_pixels (m_bitmap (blit_tile frame tile_x tile_y cb)) !! p =
  bm_pixels (m_bitmap cb) !! p.
Proof.
  intros Hok Hmatch Htile Hout.
  rewrite blit_tile_bitmap by done. apply put_all_other.
  intros ([q c] & Hq & (x & y & Hx & Hy & [= -> ->])%elem_of_rect_writes)%list_elem_of_fmap.
  cbn in Hq. subst p. apply Hout. unfold in_tile, in_rect. cbn. lia.
Qed.

Lemma blit_tile_keeps_assertions (frame frame' : Frame) (tile_x tile_y : Z)
    (cb : TileCallback) :
  bitmap_ok (m_bitmap cb) -> frame_matches_bitmap frame' (m_bitmap cb) ->
  bitmap_ok (m_bitmap (blit_tile frame tile_x tile_y cb)) /\
  frame_matches_bitmap frame' (m_bitmap (blit_tile frame tile_x tile_y cb)).
Proof.
  destruct (blit_tile_same_frame frame tile_x tile_y cb) as (HW & HH & _).
  unfold bitmap_ok, frame_matches_bitmap. rewrite HW, HH. done.
Qed.

(** The bracket is gone once the tile is rendered.  For a frame that
    matches the bitmap and a non-empty tile of it, announcing the tile with
    [pre_render] on its rectangle and then delivering it with
    [post_render_tile] leaves the bitmap with exactly the pixels that
    [post_render_tile] alone would have left: nothing of the bracket
    remains, inside or outside the tile. *)
Theorem post_render_tile_erases_bracket (frame : Frame) (tile_x tile_y : Z)
    (cb : TileCallback) :
  bitmap_ok (m_bitmap cb) ->
  frame_matches_bitmap frame (m_bitmap cb) ->
  tile_in_canvas frame tile_x tile_y ->
  let props := properties (image frame) in
  let t := tile (image frame) tile_x tile_y in
  1 <= get_width t -> 1 <= get_height t ->
  bm_pixels (m_bitmap
    (post_render_tile frame tile_x tile_y
       (pre_render (tile_x * m_tile_width props) (tile_y * m_tile_height props)
                   (get_width t) (get_height t) cb))) =
  bm_pixels (m_bitmap (post_render_tile frame tile_x tile_y cb)).
Proof.
  intros Hok Hmatch Htile props t Hw Hh.
  set (left := tile_x * m_tile_width props).
  set (top := tile_y * m_tile_height props).
  set (cb1 := pre_render left top (get_width t) (get_height t) cb).
  assert (Hrange : 0 <= left /\ 0 <= top /\
                   left + get_width t < 2 ^ 31 /\ top + get_height t < 2 ^ 31).
  { destruct Hok as [HW HH]. destruct Hmatch as (Hcw & Hch & _).
    destruct Htile as (Htx & Hty & Htw & Hth & _ & _ & Hxw & Hyh).
    rewrite to_size_t_id in Hcw, Hch by (unfold_ints; lia).
    fold props in Hcw, Hch, Htw, Hth, Hxw, Hyh. fold t left in Hxw. fold t top in Hyh.
    assert (0 <= left) by (apply Z.mul_nonneg_nonneg; lia).
    assert (0 <= top) by (apply Z.mul_nonneg_nonneg; lia).
    lia. }
  destruct Hrange as (Hl & Ht & Hlw & Hth).
  assert (Hsize : Width (m_bitmap cb1) = Width (m_bitmap cb) /\
                  Height (m_bitmap cb1) = Height (m_bitmap cb))
    by apply (notify_same_size (notify_pre_render left top (get_width t) (get_height t))).
  destruct Hsize as [HW1 HH1].
  assert (Hok1 : bitmap_ok (m_bitmap cb1)) by (unfold bitmap_ok; by rewrite HW1, HH1).
  assert (Hmatch1 : frame_matches_bitmap frame (m_bitmap cb1))
    by (unfold frame_matches_bitmap; by rewrite HW1, HH1).
  change (bm_pixels (m_bitmap (blit_tile frame tile_x tile_y cb1)) =
          bm_pixels (m_bitmap (blit_tile frame tile_x tile_y cb))).
  apply map_eq. intros p.
  destruct (decide (in_tile frame tile_x tile_y p)) as [Hin|Hout].
  - destruct p as [px py]. unfold in_tile, in_rect in Hin. cbn in Hin.
    fold props t left top in Hin.
    pose proof (blit_tile_pixel_in frame tile_x tile_y cb1 (px - left) (py - top)
                  Hok1 Hmatch1 Htile ltac:(fold t; lia) ltac:(fold t; lia)) as H1.
    pose proof (blit_tile_pixel_in frame tile_x tile_y cb (px - left) (py - top)
                  Hok Hmatch Htile ltac:(fold t; lia) ltac:(fold t; lia)) as H2.
    fold props left top in H1, H2.
    replace (left + (px - left)) with px in H1, H2 by lia.
    replace (top + (py - top)) with py in H1, H2 by lia.
    by rewrite H1, H2.
  - rewrite !blit_tile_pixel_out by done.
    unfold cb1. rewrite pre_render_bitmap by lia. cbn [RefreshWindow bm_pixels].
    apply put_all_other.
    intros ([q c] & Hq & Hin)%list_elem_of_fmap. cbn in Hq. subst q.
    apply bracket_writes_on_bracket in Hin; [|lia..]. destruct Hin as [Hon _].
    apply on_bracket_on_outline in Hon; [|lia..].
    apply Hout. by destruct Hon.
Qed.

(** ** The pixels after post_render *)

(** Distinct tiles of a frame occupy disjoint rectangles. *)
Lemma tiles_disjoint (frame : Frame) (xy1 xy2 : Z * Z) (p : Z * Z) :
  tile_ok frame xy1 -> tile_ok frame xy2 ->
  in_tile frame (xy1.1) (xy1.2) p -> in_tile frame (xy2.1) (xy2.2) p ->
  xy1 = xy2.
Proof.
  destruct xy1 as [a1 b1], xy2 as [a2 b2], p as [px py].
  unfold tile_ok, tile_in_canvas, in_tile, in_rect. cbn.
  set (tw := m_tile_width (properties (image frame))).
  set (th := m_tile_height (properties (image frame))).
  intros (Hc1 & Hw1 & Hh1) (Hc2 & Hw2 & Hh2) [Hx1 Hy1] [Hx2 Hy2].
  assert (a1 = a2).
  { destruct (Z.lt_trichotomy a1 a2) as [Hlt|[->|Hlt]]; [|done|].
    - assert ((a1 + 1) * tw <= a2 * tw) by (apply Z.mul_le_mono_nonneg_r; lia). lia.
    - assert ((a2 + 1) * tw <= a1 * tw) by (apply Z.mul_le_mono_nonneg_r; lia). lia. }
  assert (b1 = b2).
  { destruct (Z.lt_trichotomy b1 b2) as [Hlt|[->|Hlt]]; [|done|].
    - assert ((b1 + 1) * th <= b2 * th) by (apply Z.mul_le_mono_nonneg_r; lia). lia.
    - assert ((b2 + 1) * th <= b1 * th) by (apply Z.mul_le_mono_nonneg_r; lia). lia. }
  congruence.
Qed.

Lemma blit_tiles_cons (frame : Frame) (xy : Z * Z) (tiles : list (Z * Z))
    (cb : TileCallback) :
  blit_tiles frame (xy :: tiles) cb =
  blit_tiles frame tiles (blit_tile frame (xy.1) (xy.2) cb).
Proof. reflexivity. Qed.

Lemma blit_tiles_pixel_out (frame : Frame) (tiles : list (Z * Z)) (cb : TileCallback)
    (p : Z * Z) :
  bitmap_ok (m_bitmap cb) -> frame_matches_bitmap frame (m_bitmap cb) ->
  (forall xy, xy ∈ tiles -> tile_ok frame xy /\ ~ in_tile frame (xy.1) (xy.2) p) ->
  bm_pixels (m_bitmap (blit_tiles frame tiles cb)) !! p = bm_pixels (m_bitmap cb) !! p.
Proof.
  revert cb. induction tiles as [|xy tiles IH]; intros cb Hok Hmatch Hall; [done|].
  rewrite blit_tiles_cons.
  destruct (blit_tile_keeps_assertions frame frame (xy.1) (xy.2) cb Hok Hmatch)
    as [Hok1 Hmatch1].
  destruct (Hall xy (list_elem_of_here _ _)) as [(Htile & _) Hout].
  rewrite IH; [|done..|].
  - by apply blit_tile_pixel_out.
  - intros xy' Hin. apply Hall. by apply list_elem_of_further.
Qed.

Lemma blit_tiles_pixel_in (frame : Frame) (tiles : list (Z * Z)) (cb : TileCallback)
    (tile_x tile_y x y : Z) :
  bitmap_ok (m_bitmap cb) -> frame_matches_bitmap frame (m_bitmap cb) ->
  NoDup tiles -> (forall xy, xy ∈ tiles -> tile_ok frame xy) ->
  (tile_x, tile_y) ∈ tiles ->
  let props := properties (image frame) in
  let t := tile (image frame) tile_x tile_y in
  0 <= x < get_width t -> 0 <= y < get_height t ->
  bm_pixels (m_bitmap (blit_tiles frame tiles cb))
    !! (tile_x * m_tile_width props + x, tile_y * m_tile_height props + y) =
  Some (output_pixel frame t x y).
Proof.
  intros Hok Hmatch Hnd Hall Hin props t Hx Hy.
  revert cb Hok Hmatch. induction tiles as [|xy tiles IH]; intros cb Hok Hmatch.
  { by apply elem_of_nil in Hin. }
  rewrite blit_tiles_cons.
  destruct (blit_tile_keeps_assertions frame frame (xy.1) (xy.2) cb Hok Hmatch)
    as [Hok1 Hmatch1].
  apply NoDup_cons in Hnd as [Hfresh Hnd].
  assert (Hp : in_tile frame tile_x tile_y
                 (tile_x * m_tile_width props + x, tile_y * m_tile_height props + y)).
  { unfold in_tile, in_rect. cbn. fold props t. lia. }
  apply elem_of_cons in Hin as [<-|Hin].
  - rewrite blit_tiles_pixel_out; [|done..|].
    + apply blit_tile_pixel_in; [done..| |done|done].
      by destruct (Hall (tile_x, tile_y) (list_elem_of_here _ _)).
    + intros xy' Hin'. split; [apply Hall; by apply list_elem_of_further|].
      intros Hp'. apply Hfresh.
      rewrite (tiles_disjoint frame (tile_x, tile_y) xy' _
                 (Hall _ (list_elem_of_here _ _))
                 (Hall _ (list_elem_of_further _ _ _ Hin')) Hp Hp').
      done.
  - apply IH; [done| |done..].
    intros xy' Hin'. apply Hall. by apply list_elem_of_further.
Qed.

Lemma notify_all_same_size (ns : list Notification) (cb : TileCallback) :
  Width (m_bitmap (notify_all ns cb)) = Width (m_bitmap cb) /\
  Height (m_bitmap (notify_all ns cb)) = Height (m_bitmap cb).
Proof.
  revert cb. induction ns as [|n ns IH]; intros cb; [done|].
  rewrite notify_all_cons.
  destruct (IH (notify n cb)) as [-> ->]. apply notify_same_size.
Qed.

(** [post_render] leaves the frame in the bitmap.  Let the bitmap match the
    frame and let the tiles of the frame lie in the canvas without
    overlapping.  Then, whatever notifications came before (brackets, tiles
    of this or of other frames), after [post_render] every pixel of every
    tile of the frame holds the source pixel converted to floating point and
    transformed to the output colour space, and every pixel of the bitmap
    that belongs to no tile is what it was before [post_render]. *)
Theorem post_render_shows_frame (frame : Frame) (ns : list Notification)
    (cb : TileCallback) :
  bitmap_ok (m_bitmap cb) ->
  frame_matches_bitmap frame (m_bitmap cb) ->
  frame_tiles_ok frame ->
  let props := properties (image frame) in
  let before := notify_all ns cb in
  let after := bm_pixels (m_bitmap (post_render frame before)) in
  (forall tile_x tile_y x y,
     0 <= tile_x < m_tile_count_x props -> 0 <= tile_y < m_tile_count_y props ->
     0 <= x < get_width (tile (image frame) tile_x tile_y) ->
     0 <= y < get_height (tile (image frame) tile_x tile_y) ->
     after !! (tile_x * m_tile_width props + x, tile_y * m_tile_height props + y) =
     Some (output_pixel frame (tile (image frame) tile_x tile_y) x y)) /\
  (forall p,
     (forall tile_x tile_y,
        0 <= tile_x < m_tile_count_x props -> 0 <= tile_y < m_tile_count_y props ->
        ~ in_tile frame tile_x tile_y p) ->
     after !! p = bm_pixels (m_bitmap before) !! p).
Proof.
  intros Hok Hmatch Htiles props before after.
  destruct (notify_all_same_size ns cb) as [HW HH]. fold before in HW, HH.
  assert (Hok' : bitmap_ok (m_bitmap before)) by (unfold bitmap_ok; by rewrite HW, HH).
  assert (Hmatch' : frame_matches_bitmap frame (m_bitmap before))
    by (unfold frame_matches_bitmap; by rewrite HW, HH).
  assert (Hafter : after = bm_pixels (m_bitmap (blit_tiles frame (all_tiles props) before))).
  { unfold after, post_render. by rewrite blit_all_tiles. }
  assert (Hall : forall xy, xy ∈ all_tiles props -> tile_ok frame xy).
  { intros [a b] [Ha Hb]%elem_of_all_tiles. by apply Htiles. }
  rewrite Hafter. split.
  - intros tile_x tile_y x y Htx Hty Hx Hy.
    apply blit_tiles_pixel_in; [done|done|apply NoDup_all_tiles|done| |done|done].
    by apply elem_of_all_tiles.
  - intros p Hp. apply blit_tiles_pixel_out; [done..|].
    intros [a b] Hin. split; [by apply Hall|].
    apply elem_of_all_tiles in Hin as [Ha Hb]. by apply Hp.
Qed.

(** A frame without tiles: when either tile count is zero, [post_render]
    blits nothing and only refreshes the whole window. *)
Theorem post_render_no_tiles (frame : Frame) (cb : TileCallback) :
  let props := properties (image frame) in
  m_tile_count_x props <= 0 \/ m_tile_count_y props <= 0 ->
  post_render frame cb = with_bitmap (RefreshWindow None (m_bitmap cb)) cb.
Proof.
  intros props Hempty. unfold post_render. rewrite blit_all_tiles. fold props.
  replace (all_tiles props) with (@nil (Z * Z)); [done|].
  unfold all_tiles. destruct Hempty as [Hx|Hy].
  - rewrite (seqZ_nil 0 (m_tile_count_x props)) by done.
    induction (seqZ 0 (m_tile_count_y props)) as [|y ys IH]; [done|].
    by rewrite bind_cons, <- IH.
  - by rewrite (seqZ_nil 0 (m_tile_count_y props)) by done.
Qed.

(** ** make_rect *)

(** The rectangle keeps the extent of the tile modulo [2^32].  For all
    arguments every field of the rectangle that [make_rect] returns is a
    [LONG], and the differences [right - left] and [bottom - top], taken in
    [LONG], are the width and the height cast to [LONG]; adding [2^32] to an
    argument does not change the rectangle. *)
Theorem make_rect_extent (x y width height : Z) :
  let rect := make_rect x y width height in
  is_int (rect_left rect) /\ is_int (rect_top rect) /\
  is_int (rect_right rect) /\ is_int (rect_bottom rect) /\
  int_sub (rect_right rect) (rect_left rect) = to_int width /\
  int_sub (rect_bottom rect) (rect_top rect) = to_int height /\
  make_rect (x + 2 ^ 32) y width height = rect /\
  make_rect x (y + 2 ^ 32) width height = rect /\
  make_rect x y (width + 2 ^ 32) height = rect /\
  make_rect x y width (height + 2 ^ 32) = rect.
Proof.
  assert (Hsub : forall a b, int_sub (to_int (to_size_t (a + b))) (to_int a) = to_int b)
    by (intros; int_arith).
  assert (Hshift : forall a, to_int (a + 2 ^ 32) = to_int a) by (intros; int_arith).
  assert (Hshift2 : forall a, to_int (to_size_t (a + 2 ^ 32)) = to_int (to_size_t a))
    by (intros; int_arith).
  cbn [make_rect rect_left rect_top rect_right rect_bottom]. unfold make_rect.
  cbn [rect_left rect_top rect_right rect_bottom].
  rewrite !Hsub, !Hshift.
  replace (x + 2 ^ 32 + width) with (x + width + 2 ^ 32) by lia.
  replace (y + 2 ^ 32 + height) with (y + height + 2 ^ 32) by lia.
  rewrite !Z.add_assoc, !Hshift2.
  split_and!; try done; apply to_int_is_int.
Qed.

End tile_callback_further.

(** * Further properties of the parameter dialog *)

Section param_dlg_further.

Context {resources : Resources}.

Lemma to_int_to_size_t (v : Z) : is_int v -> to_int (to_size_t v) = v.
Proof. intros. int_arith. Qed.

(** What the dialog stores is what it shows.  The value that [on_command]
    reads from the edit box and stores in [m_pixel_samples] is, for every
    [int] the edit box can show, negative ones included, the value that
    [create_controls] hands to the spinner when a dialog is opened on these
    settings: the conversion to [size_t] and the conversion back to [int]
    cancel. *)
Theorem stored_value_shown_again (h h' : Host) (obj : Impl) (wParam lParam : Z)
    (edit : Control) (hWnd : HWND) :
  m_text_pixelsamples obj = Some edit ->
  LOWORD wParam = IDC_TEXT_PIXELSAMPLES ->
  exists obj',
    on_command h obj wParam lParam = Some (obj', TRUE) /\
    spin_value <$>
      spinners ((create_controls hWnd obj' h').2) !! GetDlgItem hWnd IDC_SPINNER_PIXELSAMPLES =
    Some (Some (GetInt edit h)).
Proof.
  intros Hedit Hid.
  destruct (on_command_cases h obj wParam lParam edit Hedit) as [[_ Hcmd]|[Hne _]]; [|done].
  eexists. split; [exact Hcmd|].
  destruct (create_controls_host hWnd
              (mkImpl (m_in_progress obj) (mkRendererSettings (to_size_t (GetInt edit h)))
                      (m_rollup_sampling obj) (m_text_pixelsamples obj)
                      (m_spinner_pixelsamples obj)) h') as (_ & _ & _ & _ & _ & Hsp).
  rewrite Hsp, lookup_insert_eq. cbn.
  by rewrite to_int_to_size_t by apply to_int_is_int.
Qed.

(** ** Messages *)



(** ** Sequences of commands *)

Lemma command_step_impl (page : HWND) (this : addr) (edit spinner : Control)
    (cmd : Z * Z) (obj : Impl) (w : World) :
  dialog_ready page this edit spinner w ->
  impls w !! this = Some obj ->
  exists result,
    dialog_proc page WM_COMMAND (cmd.1) (cmd.2) w =
    Some (with_impl this
            (if is_edit_command cmd
             then with_samples (to_size_t (GetInt edit (host w))) obj
             else obj) w, result).
Proof.
  intros (Hptr & obj0 & Hobj0 & Hpage & Hedit & Hspin) Hobj.
  assert (obj0 = obj) as -> by congruence.
  rewrite (dialog_proc_COMMAND _ _ _ this obj) by done.
  unfold is_edit_command.
  destruct (on_command_cases (host w) obj (cmd.1) (cmd.2) edit Hedit)
    as [[Hid ->]|[Hid ->]]; cbn.
  - rewrite bool_decide_eq_true_2 by done. by eexists.
  - rewrite bool_decide_eq_false_2 by done. by eexists.
Qed.

Lemma with_impl_ready (page : HWND) (this : addr) (edit spinner : Control)
    (obj obj' : Impl) (w : World) :
  dialog_ready page this edit spinner w ->
  impls w !! this = Some obj ->
  m_rollup_sampling obj' = m_rollup_sampling obj ->
  m_text_pixelsamples obj' = m_text_pixelsamples obj ->
  m_spinner_pixelsamples obj' = m_spinner_pixelsamples obj ->
  dialog_ready page this edit spinner (with_impl this obj' w).
Proof.
  intros (Hptr & obj0 & Hobj0 & Hpage & Hedit & Hspin) Hobj H1 H2 H3.
  assert (obj0 = obj) as -> by congruence.
  split; [done|]. exists obj'. cbn. rewrite lookup_insert_eq.
  split_and!; congruence.
Qed.

(** After a sequence of commands the [Impl] object of the page holds the
    value of the edit box if one of the commands came from the edit box, and
    is as before otherwise; nothing else has changed. *)
Lemma send_commands_final (page : HWND) (this : addr) (edit spinner : Control)
    (cmds : list (Z * Z)) (obj : Impl) (w : World) :
  dialog_ready page this edit spinner w ->
  impls w !! this = Some obj ->
  exists w',
    send_commands page cmds w = Some w' /\
    host w' = host w /\
    settings_objects w' = settings_objects w /\
    impls w' =
      <[this := if existsb is_edit_command cmds
                then with_samples (to_size_t (GetInt edit (host w))) obj
                else obj]> (impls w) /\
    dialog_ready page this edit spinner w'.
Proof.
  revert obj w. induction cmds as [|cmd cmds IH]; intros obj w Hready Hobj.
  - exists w. cbn. split_and!; try done. by rewrite insert_id.
  - destruct (command_step_impl page this edit spinner cmd obj w Hready Hobj)
      as (result & Hstep).
    set (obj1 := if is_edit_command cmd
                 then with_samples (to_size_t (GetInt edit (host w))) obj
                 else obj) in *.
    assert (Hready1 : dialog_ready page this edit spinner (with_impl this obj1 w)).
    { apply (with_impl_ready _ _ _ _ obj); [done..| | |];
        unfold obj1; by destruct (is_edit_command cmd). }
    destruct (IH obj1 (with_impl this obj1 w) Hready1 (lookup_insert_eq _ _ _))
      as (w' & Hrest & Hhost & Hset & Himpls & Hready').
    exists w'. cbn [send_commands]. rewrite Hstep. cbn -[existsb].
    split_and!; try done.
    rewrite Himpls. cbn [impls with_impl host]. rewrite insert_insert_eq.
    f_equal. cbn [existsb]. unfold obj1.
    destruct (is_edit_command cmd), (existsb is_edit_command cmds); done.
Qed.


(** Construction and destruction balance on the heap.  The constructor
    allocates one [Impl] object at an address that was free; whatever
    commands the page receives, the destructor frees exactly that object:
    the heap of [Impl] objects is then what it was before the
    construction. *)
Theorem dialog_frees_impl (in_progress : bool) (settings : addr)
    (s : RendererSettings) (cmds : list (Z * Z)) (w : World) :
  settings_objects w !! settings = Some s ->
  let page := fresh (dom (rollup_pages (host w))) in
  exists dlg w1 w2 w3,
    AppleseedRendererParamDlg_ctor in_progress settings w = Some (dlg, w1) /\
    impls w !! impl dlg = None /\
    is_Some (impls w1 !! impl dlg) /\
    dom (impls w1) = {[impl dlg]} ∪ dom (impls w) /\
    send_commands page cmds w1 = Some w2 /\
    is_Some (impls w2 !! impl dlg) /\
    AppleseedRendererParamDlg_dtor dlg w2 = Some w3 /\
    impls w3 = impls w.
Proof.
  intros Hs page.
  destruct (ctor_spec in_progress settings s w Hs)
    as (w1 & Hctor & Hfresh & _ & _ & _ & _ & Himpls & _ & Hready).
  set (this := fresh (dom (impls w))) in *.
  set (edit := GetDlgItem page IDC_TEXT_PIXELSAMPLES) in *.
  set (spinner := GetDlgItem page IDC_SPINNER_PIXELSAMPLES) in *.
  set (obj := mkImpl in_progress s (Some page) (Some edit) (Some spinner)) in *.
  assert (Hobj : impls w1 !! this = Some obj) by (by rewrite Himpls, lookup_insert_eq).
  destruct (send_commands_final page this edit spinner cmds obj w1 Hready Hobj)
    as (w2 & Hcmds & _ & _ & Himpls2 & Hready2).
  destruct (dtor_spec page (mkAppleseedRendererParamDlg this settings) edit spinner w2
              Hready2) as (w3 & Hdtor & _ & _ & _ & _ & _ & Himpls3 & _).
  eexists _, w1, w2, w3. split; [exact Hctor|]. cbn [impl].
  split_and!.
  - done.
  - by rewrite Hobj.
  - rewrite Himpls. apply dom_insert_L.
  - done.
  - rewrite Himpls2, lookup_insert_eq. by eexists.
  - done.
  - rewrite Himpls3, Himpls2, Himpls. cbn [impl].
    rewrite insert_insert_eq, delete_insert_eq. by apply delete_id.
Qed.

Lemma dialog_ready_ext (page : HWND) (this : addr) (edit spinner : Control)
    (w w' : World) :
  dialog_ready page this edit spinner w ->
  rollup_pages (host w') !! page = rollup_pages (host w) !! page ->
  impls w' !! this = impls w !! this ->
  dialog_ready page this edit spinner w'.
Proof.
  intros (Hptr & obj & Hobj & Hrest) Hpage Himpl. split.
  - unfold DLGetWindowLongPtr in *. by rewrite Hpage.
  - exists obj. by rewrite Himpl.
Qed.

(** Two dialogs do not interfere.  While one dialog is open, a second one
    can be constructed, receive any commands and be destroyed: it gets a
    page and an [Impl] object of its own, and at every stage the first
    dialog stays ready, with its rollup page and its [Impl] object, hence
    its copy of the settings, untouched. *)
Theorem dialogs_do_not_interfere (page1 : HWND) (this1 : addr)
    (edit1 spinner1 : Control) (in_progress : bool) (settings : addr)
    (s : RendererSettings) (cmds : list (Z * Z)) (w : World) :
  dialog_ready page1 this1 edit1 spinner1 w ->
  settings_objects w !! settings = Some s ->
  let page := fresh (dom (rollup_pages (host w))) in
  exists dlg w1 w2 w3,
    AppleseedRendererParamDlg_ctor in_progress settings w = Some (dlg, w1) /\
    send_commands page cmds w1 = Some w2 /\
    AppleseedRendererParamDlg_dtor dlg w2 = Some w3 /\
    impl dlg <> this1 /\ page <> page1 /\
    Forall (fun w' =>
              dialog_ready page1 this1 edit1 spinner1 w' /\
              impls w' !! this1 = impls w !! this1 /\
              rollup_pages (host w') !! page1 = rollup_pages (host w) !! page1)
           [w1; w2; w3].
Proof.
  intros Hready1 Hs page.
  destruct (ctor_spec in_progress settings s w Hs)
    as (w1 & Hctor & Hfresh & Hpfresh & Hpages & _ & _ & Himpls & _ & Hready).
  set (this := fresh (dom (impls w))) in *.
  set (edit := GetDlgItem page IDC_TEXT_PIXELSAMPLES) in *.
  set (spinner := GetDlgItem page IDC_SPINNER_PIXELSAMPLES) in *.
  set (obj := mkImpl in_progress s (Some page) (Some edit) (Some spinner)) in *.
  assert (Hobj : impls w1 !! this = Some obj) by (by rewrite Himpls, lookup_insert_eq).
  destruct (send_commands_final page this edit spinner cmds obj w1 Hready Hobj)
    as (w2 & Hcmds & Hhost2 & _ & Himpls2 & Hready2).
  destruct (dtor_spec page (mkAppleseedRendererParamDlg this settings) edit spinner w2
              Hready2) as (w3 & Hdtor & Hpages3 & _ & _ & _ & _ & Himpls3 & _).
  cbn [impl] in Himpls3.
  assert (Hthis : this <> this1).
  { intros ->. destruct Hready1 as (_ & obj1 & Hobj1 & _). congruence. }
  assert (Hpage : page <> page1).
  { intros Heq. destruct Hready1 as (Hptr & _). unfold DLGetWindowLongPtr in Hptr.
    rewrite <- Heq in Hptr.
    change (rollup_pages (host w) !! page = None) in Hpfresh.
    rewrite Hpfresh in Hptr. discriminate. }
  assert (Hi1 : impls w1 !! this1 = impls w !! this1)
    by (by rewrite Himpls, lookup_insert_ne).
  assert (Hi2 : impls w2 !! this1 = impls w !! this1)
    by (by rewrite Himpls2, Himpls, !lookup_insert_ne).
  assert (Hi3 : impls w3 !! this1 = impls w !! this1)
    by (by rewrite Himpls3, lookup_delete_ne).
  assert (Hp1 : rollup_pages (host w1) !! page1 = rollup_pages (host w) !! page1)
    by (by rewrite Hpages, lookup_insert_ne).
  assert (Hp2 : rollup_pages (host w2) !! page1 = rollup_pages (host w) !! page1)
    by (by rewrite Hhost2).
  assert (Hp3 : rollup_pages (host w3) !! page1 = rollup_pages (host w) !! page1)
    by (by rewrite Hpages3, lookup_delete_ne).
  eexists _, w1, w2, w3. split; [exact Hctor|]. cbn [impl].
  split_and!; try done.
  rewrite !Forall_cons, Forall_nil.
  split_and!; try done; by apply (dialog_ready_ext _ _ _ _ w).
Qed.

(** Only the control identifier of a command matters.  The outcome of a
    [WM_COMMAND] depends on the low word of its [wParam] alone: the
    notification code in the high word and the [lParam] are never looked at,
    so that every notification of the edit box, whatever its kind, makes the
    dialog read the box again. *)
Theorem command_depends_on_control_id_only (hWnd : HWND)
    (wParam lParam wParam' lParam' : Z) (w : World) :
  LOWORD wParam = LOWORD wParam' ->
  dialog_proc hWnd WM_COMMAND wParam lParam w =
  dialog_proc hWnd WM_COMMAND wParam' lParam' w /\
  dialog_proc hWnd WM_COMMAND wParam lParam w =
  dialog_proc hWnd WM_COMMAND (LOWORD wParam) 0 w.
Proof.
  assert (Hword : forall v, LOWORD (LOWORD v) = LOWORD v).
  { intros v. unfold LOWORD. by rewrite <- Z.land_assoc, Z.land_diag. }
  assert (Hsame : forall a b c d, LOWORD a = LOWORD c ->
            dialog_proc hWnd WM_COMMAND a b w = dialog_proc hWnd WM_COMMAND c d w).
  { intros a b c d Hlow. unfold dialog_proc, on_command. by rewrite Hlow. }
  intros Hlow. split; apply Hsame; [done|by rewrite Hword].
Qed.

End param_dlg_further.

(** * Further concrete instances *)

Lemma blit_tile_write_count_witness :
  length (bm_calls (m_bitmap (blit_tile (renderer := example_renderer) example_frame 1 0
                                example_callback))) = 2%nat /\
  m_bitmap (blit_tile (renderer := example_renderer) example_empty_frame 0 0 example_callback) =
    m_bitmap example_callback.
Proof.
  split.
  - destruct (blit_tile_write_count (renderer := example_renderer) example_frame 1 0
                example_callback) as (Hcalls & Hlen & _).
    rewrite Hcalls, length_app, length_fmap, Hlen. reflexivity.
  - destruct (blit_tile_write_count (renderer := example_renderer) example_empty_frame 0 0
                example_callback) as (_ & _ & Hempty).
    apply Hempty. left. concrete.
Defined.

Lemma notifications_keep_assertions_witness :
  bitmap_ok (m_bitmap example_callback) /\
  frame_matches_bitmap (renderer := example_renderer) example_frame (m_bitmap example_callback) /\
  bitmap_ok (m_bitmap (notify_all example_notifications example_callback)) /\
  frame_matches_bitmap (renderer := example_renderer) example_frame
    (m_bitmap (notify_all example_notifications example_callback)).
Proof.
  assert (Hok : bitmap_ok (m_bitmap example_callback)) by concrete.
  assert (Hmatch : frame_matches_bitmap (renderer := example_renderer) example_frame
                     (m_bitmap example_callback)) by concrete.
  destruct (notifications_keep_assertions (renderer := example_renderer) example_notifications
              example_callback example_frame) as (_ & _ & Hok' & Hmatch').
  split_and!; [done|done|by apply Hok'|by apply Hmatch'].
Defined.

Lemma scratch_tile_allocated_once_witness :
  m_float_tile_storage example_callback = None /\
  m_float_tile_storage (blit_tile (renderer := example_renderer) example_frame 0 0
                          example_callback) =
    Some (mkTileStorage 2 2 4 PixelFormatFloat) /\
  m_float_tile_storage
    (notify_all example_notifications
       (mkTileCallback example_bitmap 0 (Some (mkTileStorage 8 8 4 PixelFormatFloat)))) =
    Some (mkTileStorage 8 8 4 PixelFormatFloat).
Proof.
  split; [reflexivity|]. split.
  - destruct (scratch_tile_allocated_once (renderer := example_renderer) example_bitmap 0
                example_frame 0 0 0 0 2 2 [] example_callback
                (mkTileStorage 2 2 4 PixelFormatFloat)) as (_ & _ & Hfirst & _).
    rewrite Hfirst by reflexivity. reflexivity.
  - destruct (scratch_tile_allocated_once (renderer := example_renderer) example_bitmap 0
                example_frame 0 0 0 0 2 2 example_notifications
                (mkTileCallback example_bitmap 0 (Some (mkTileStorage 8 8 4 PixelFormatFloat)))
                (mkTileStorage 8 8 4 PixelFormatFloat)) as (_ & _ & _ & Hkept).
    by apply Hkept.
Defined.

Lemma counter_counts_rendered_tiles_witness :
  is_uint32 (m_rendered_tile_count example_callback) /\
  m_rendered_tile_count (notify_all example_notifications example_callback) = 1.
Proof.
  assert (Hc : is_uint32 (m_rendered_tile_count example_callback)) by concrete.
  split; [done|].
  rewrite (counter_counts_rendered_tiles (renderer := example_renderer) example_notifications
             example_callback Hc).
  reflexivity.
Defined.

Lemma pre_render_pixels_witness :
  bm_pixels (m_bitmap (pre_render 0 0 3 2 example_callback)) !! (2, 1) = Some white /\
  bm_pixels (m_bitmap (pre_render 0 0 2 2 example_callback)) !! (2, 1) = None.
Proof.
  split.
  - destruct (pre_render_pixels example_callback 0 0 3 2
                ltac:(concrete) ltac:(concrete) ltac:(concrete) ltac:(concrete)
                ltac:(concrete) ltac:(concrete)) as (Hon & _ & _).
    apply (Hon (2, 1)); [|concrete].
    left. cbn. lia.
  - destruct (pre_render_pixels example_callback 0 0 2 2
                ltac:(concrete) ltac:(concrete) ltac:(concrete) ltac:(concrete)
                ltac:(concrete) ltac:(concrete)) as (_ & Hoff & _).
    rewrite (Hoff (2, 1)); [reflexivity|].
    unfold on_bracket. cbn. lia.
Defined.

Lemma pre_render_cost_witness :
  exists writes,
    bm_calls (m_bitmap (pre_render 0 0 3 2 example_callback)) =
      (write_call <$> writes) ++ [CallRefreshWindow (Some (mkRECT 0 0 3 2))] /\
    Z.of_nat (length writes) = 20.
Proof.
  destruct (pre_render_cost example_callback 0 0 3 2
              ltac:(concrete) ltac:(concrete) ltac:(concrete) ltac:(concrete)
              ltac:(concrete) ltac:(concrete)) as (writes & Hcalls & Hlen & _).
  exists writes. split; [exact Hcalls|]. rewrite Hlen. reflexivity.
Defined.

Lemma post_render_tile_erases_bracket_witness :
  bitmap_ok (m_bitmap example_callback) /\
  frame_matches_bitmap (renderer := example_renderer) example_frame (m_bitmap example_callback) /\
  tile_in_canvas (renderer := example_renderer) example_frame 0 0 /\
  bm_pixels (m_bitmap
    (post_render_tile (renderer := example_renderer) example_frame 0 0
       (pre_render 0 0 2 2 example_callback))) =
  bm_pixels (m_bitmap
    (post_render_tile (renderer := example_renderer) example_frame 0 0 example_callback)).
Proof.
  assert (Hok : bitmap_ok (m_bitmap example_callback)) by concrete.
  assert (Hmatch : frame_matches_bitmap (renderer := example_renderer) example_frame
                     (m_bitmap example_callback)) by concrete.
  assert (Htile : tile_in_canvas (renderer := example_renderer) example_frame 0 0) by concrete.
  split_and!; [done..|].
  exact (post_render_tile_erases_bracket (renderer := example_renderer) example_frame 0 0
           example_callback Hok Hmatch Htile ltac:(concrete) ltac:(concrete)).
Defined.

Lemma post_render_shows_frame_witness :
  bitmap_ok (m_bitmap example_callback) /\
  frame_matches_bitmap (renderer := example_renderer) example_frame (m_bitmap example_callback) /\
  frame_tiles_ok (renderer := example_renderer) example_frame /\
  bm_pixels (m_bitmap (post_render (renderer := example_renderer) example_frame
                         (notify_all example_notifications example_callback)))
    !! (2, 1) = Some (mkBMM_Color_fl 110 110 110 float_one).
Proof.
  assert (Hok : bitmap_ok (m_bitmap example_callback)) by concrete.
  assert (Hmatch : frame_matches_bitmap (renderer := example_renderer) example_frame
                     (m_bitmap example_callback)) by concrete.
  assert (Htiles : frame_tiles_ok (renderer := example_renderer) example_frame).
  { intros tile_x tile_y Hx Hy. cbn in Hx, Hy.
    assert (tile_y = 0) as -> by lia.
    assert (tile_x = 0 \/ tile_x = 1) as [-> | ->] by lia; concrete. }
  split_and!; [done..|].
  destruct (post_render_shows_frame (renderer := example_renderer) example_frame
              example_notifications example_callback Hok Hmatch Htiles) as (Hin & _).
  exact (Hin 1 0 0 1 ltac:(concrete) ltac:(concrete) ltac:(concrete) ltac:(concrete)).
Defined.

Lemma post_render_no_tiles_witness :
  m_tile_count_x (properties example_empty_frame) <= 0 /\
  post_render (renderer := example_renderer) example_empty_frame example_callback =
    with_bitmap (RefreshWindow None (m_bitmap example_callback)) example_callback.
Proof.
  assert (Hnone : m_tile_count_x (properties example_empty_frame) <= 0) by concrete.
  split; [done|].
  apply (post_render_no_tiles (renderer := example_renderer) example_empty_frame
           example_callback).
  by left.
Defined.

Lemma stored_value_shown_again_witness :
  GetInt example_edit example_host_negative = -1 /\
  exists obj',
    on_command (resources := example_resources) example_host_negative (example_impl 16) 1001 0 =
      Some (obj', TRUE) /\
    m_pixel_samples (m_settings obj') = 2 ^ 64 - 1 /\
    spin_value <$>
      spinners ((create_controls (resources := example_resources) 1%positive obj'
                   example_host).2) !! GetDlgItem 1%positive 1002 =
    Some (Some (-1)).
Proof.
  split; [reflexivity|].
  destruct (stored_value_shown_again (resources := example_resources) example_host_negative
              example_host (example_impl 16) 1001 0 example_edit 1%positive
              ltac:(reflexivity) ltac:(reflexivity)) as (obj' & Hcmd & Hshown).
  exists obj'. split_and!; [done| |done].
  vm_compute in Hcmd. injection Hcmd as <-. reflexivity.
Defined.



Lemma dialog_frees_impl_witness :
  settings_objects example_world !! 1%positive = Some (mkRendererSettings 16) /\
  exists dlg w1 w2 w3,
    AppleseedRendererParamDlg_ctor (resources := example_resources) false 1%positive example_world
      = Some (dlg, w1) /\
    send_commands (resources := example_resources) 1%positive [(1001, 0)] w1 = Some w2 /\
    AppleseedRendererParamDlg_dtor (resources := example_resources) dlg w2 = Some w3 /\
    impls w3 = ∅.
Proof.
  assert (Hs : settings_objects example_world !! 1%positive = Some (mkRendererSettings 16))
    by reflexivity.
  split; [done|].
  destruct (dialog_frees_impl (resources := example_resources) false 1%positive
              (mkRendererSettings 16) [(1001, 0)] example_world Hs)
    as (dlg & w1 & w2 & w3 & Hctor & _ & _ & _ & Hcmds & _ & Hdtor & Himpls).
  exists dlg, w1, w2, w3. split_and!; done.
Defined.

Lemma dialogs_do_not_interfere_witness :
  dialog_ready 1%positive 1%positive example_edit (GetDlgItem 1%positive 1002)
    example_open_world /\
  settings_objects example_open_world !! 1%positive = Some (mkRendererSettings 16) /\
  exists dlg w1 w2 w3,
    AppleseedRendererParamDlg_ctor (resources := example_resources) true 1%positive
      example_open_world = Some (dlg, w1) /\
    send_commands (resources := example_resources) 2%positive [(1001, 0)] w1 = Some w2 /\
    AppleseedRendererParamDlg_dtor (resources := example_resources) dlg w2 = Some w3 /\
    impl dlg <> 1%positive /\
    impls w2 !! 1%positive = Some (example_impl 16).
Proof.
  assert (Hready : dialog_ready 1%positive 1%positive example_edit (GetDlgItem 1%positive 1002)
                     example_open_world).
  { split; [reflexivity|]. exists (example_impl 16). split_and!; reflexivity. }
  assert (Hs : settings_objects example_open_world !! 1%positive = Some (mkRendererSettings 16))
    by reflexivity.
  split_and!; [done..|].
  destruct (dialogs_do_not_interfere (resources := example_resources) 1%positive 1%positive
              example_edit (GetDlgItem 1%positive 1002) true 1%positive
              (mkRendererSettings 16) [(1001, 0)] example_open_world Hready Hs)
    as (dlg & w1 & w2 & w3 & Hctor & Hcmds & Hdtor & Hdlg & _ & Hall).
  rewrite !Forall_cons in Hall. destruct Hall as (_ & (_ & Himpl2 & _) & _).
  exists dlg, w1, w2, w3. split_and!; [done..|].
  etrans; [exact Himpl2|reflexivity].
Defined.

Lemma command_depends_on_control_id_only_witness :
  LOWORD 0x030003E9 = LOWORD 1001 /\
  dialog_proc (resources := example_resources) 1%positive WM_COMMAND 0x030003E9 7
    example_open_world =
  Some (with_impl 1%positive (example_impl 0) example_open_world, TRUE).
Proof.
  assert (Hlow : LOWORD 0x030003E9 = LOWORD 1001) by reflexivity.
  split; [done|].
  destruct (command_depends_on_control_id_only (resources := example_resources) 1%positive
              0x030003E9 7 1001 0 example_open_world Hlow) as (-> & _).
  reflexivity.
Defined.
